(** * A Discord D&D assistant bot: dice, character sheets, turn order

    Shallow embedding of [src/main.py].  The bot is one event handler,
    [on_message], over two module-level dictionaries ([characters] and
    [combat_state]) that are written back to two JSON files after every
    change.  The embedding threads an explicit [world] through the handler:
    the two dictionaries, the two files, the state of the [random] module,
    what was sent to the channel and what was printed.

    Conventions of the model.
    - A Python [str] is the [string] of its UTF-8 bytes.  Prefixes,
      [split] on a letter and [str.strip] (with every blank character of
      Unicode) are computed on the bytes; [str.lower], [int] and [repr],
      which need the tables of the interpreter, are what the interpreter
      of the [world] gives, known on ASCII text.
    - A Python [int] is a [Z].
    - The documents hold the fields the bot itself writes, each one optional
      (a key may be missing from a dictionary), with the type the bot gives it.
    - An exception leaving [on_message] is caught by the event loop of the
      chat library: the world reached at that point stays.
    - Sending to the channel and printing always succeed; integers and
      lists are as large as the command asks for. *)

From Stdlib Require Import ZArith List String Ascii Bool Lia Permutation.
From Stdlib Require Import DecimalString DecimalZ.
Import ListNotations.

Local Open Scope string_scope.
Local Open Scope Z_scope.

(** ** Python strings *)

Module PyStr.

Definition code (c : ascii) : nat := nat_of_ascii c.

(** [c.isspace()] for a character of one byte: tab to carriage return,
    the four separators 28..31 and the space. *)
Definition isspace (c : ascii) : bool :=
  let n := code c in
  ((9 <=? n) && (n <=? 13) || (28 <=? n) && (n <=? 32))%nat.

(** The blank characters of two bytes: U+0085 and U+00A0. *)
Definition isspace2 (c1 c2 : ascii) : bool :=
  ((code c1 =? 194) && ((code c2 =? 133) || (code c2 =? 160)))%nat.

(** The blank characters of three bytes: U+1680, U+2000 to U+200A, U+2028,
    U+2029, U+202F, U+205F and U+3000.  With the two definitions above
    this is every character for which [str.isspace] holds. *)
Definition isspace3 (c1 c2 c3 : ascii) : bool :=
  let a := code c1 in
  let b := code c2 in
  let c := code c3 in
  ((a =? 225) && (b =? 154) && (c =? 128)
   || (a =? 226) && (b =? 128)
      && ((128 <=? c) && (c <=? 138) || (c =? 168) || (c =? 169) || (c =? 175))
   || (a =? 226) && (b =? 129) && (c =? 159)
   || (a =? 227) && (b =? 128) && (c =? 128))%nat.

(** [s.lstrip()] *)
Fixpoint lstrip (s : string) : string :=
  match s with
  | EmptyString => EmptyString
  | String c1 r1 =>
      if isspace c1 then lstrip r1
      else
        match r1 with
        | EmptyString => s
        | String c2 r2 =>
            if isspace2 c1 c2 then lstrip r2
            else
              match r2 with
              | EmptyString => s
              | String c3 r3 => if isspace3 c1 c2 c3 then lstrip r3 else s
              end
        end
  end.

Fixpoint reverse_onto (s acc : string) : string :=
  match s with
  | EmptyString => acc
  | String c r => reverse_onto r (String c acc)
  end.

Definition reverse (s : string) : string := reverse_onto s EmptyString.

(** [lstrip] read from the end: the bytes of a character come last first. *)
Fixpoint lstrip_reversed (s : string) : string :=
  match s with
  | EmptyString => EmptyString
  | String c3 r1 =>
      if isspace c3 then lstrip_reversed r1
      else
        match r1 with
        | EmptyString => s
        | String c2 r2 =>
            if isspace2 c2 c3 then lstrip_reversed r2
            else
              match r2 with
              | EmptyString => s
              | String c1 r3 =>
                  if isspace3 c1 c2 c3 then lstrip_reversed r3 else s
              end
        end
  end.

(** [s.rstrip()] *)
Definition rstrip (s : string) : string :=
  reverse (lstrip_reversed (reverse s)).

(** [s.strip()] *)
Definition strip (s : string) : string := rstrip (lstrip s).

(** [s.startswith(p)] *)
Fixpoint startswith (p s : string) : bool :=
  match p, s with
  | EmptyString, _ => true
  | String a p', String b s' => Ascii.eqb a b && startswith p' s'
  | String _ _, EmptyString => false
  end.

(** The slice [s[n:]], taken after [s] was found to start with [n]
    characters of one byte. *)
Fixpoint slice_from (n : nat) (s : string) : string :=
  match n, s with
  | O, _ => s
  | S n', String _ r => slice_from n' r
  | S _, EmptyString => EmptyString
  end.

(** [s.split(sep)] for a separator of one byte: never an empty list. *)
Fixpoint split (sep : ascii) (s : string) : list string :=
  match s with
  | EmptyString => [EmptyString]
  | String c r =>
      if Ascii.eqb c sep then EmptyString :: split sep r
      else match split sep r with
           | p :: ps => String c p :: ps
           | [] => [String c EmptyString]
           end
  end.

(** [sep.join(parts)] *)
Fixpoint join (sep : string) (parts : list string) : string :=
  match parts with
  | [] => EmptyString
  | [p] => p
  | p :: ps => p ++ sep ++ join sep ps
  end.

(** [not s]: a string is false when it is empty. *)
Definition is_empty (s : string) : bool :=
  match s with EmptyString => true | _ => false end.

(** [str(n)] for an [int]. *)
Definition str_of_int (n : Z) : string := NilZero.string_of_int (Z.to_int n).

(** Every character of [s] passes [p]. *)
Fixpoint all_chars (p : ascii -> bool) (s : string) : bool :=
  match s with
  | EmptyString => true
  | String c r => p c && all_chars p r
  end.

(** [c] is not the character [sep]. *)
Definition differs (sep : ascii) (c : ascii) : bool := negb (Ascii.eqb c sep).

(** [s.isascii()] *)
Definition is_ascii (s : string) : bool :=
  all_chars (fun c => (code c <? 128)%nat) s.

(** *** What the interpreter does on ASCII text *)

Definition isdigit (c : ascii) : bool :=
  let n := code c in ((48 <=? n) && (n <=? 57))%nat.

Definition digit_value (c : ascii) : Z := Z.of_nat (code c) - 48.

Definition lower_char (c : ascii) : ascii :=
  let n := code c in
  if ((65 <=? n) && (n <=? 90))%nat then ascii_of_nat (n + 32) else c.

(** [s.lower()] of an ASCII string. *)
Fixpoint ascii_lower (s : string) : string :=
  match s with
  | EmptyString => EmptyString
  | String c r => String (lower_char c) (ascii_lower r)
  end.

(** The blanks that [int] skips in an ASCII literal: tab to carriage
    return and the space (not 28..31). *)
Definition isblank (c : ascii) : bool :=
  let n := code c in ((9 <=? n) && (n <=? 13) || (n =? 32))%nat.

Fixpoint trim_left (s : string) : string :=
  match s with
  | EmptyString => EmptyString
  | String c r => if isblank c then trim_left r else s
  end.

Fixpoint trim_right (s : string) : string :=
  match s with
  | EmptyString => EmptyString
  | String c r =>
      match trim_right r with
      | EmptyString => if isblank c then EmptyString else String c EmptyString
      | r' => String c r'
      end
  end.

Definition trim (s : string) : string := trim_right (trim_left s).

(** The digits of [int(s)], after the sign: a digit, then digits, each one
    possibly preceded by a single underscore. *)
Fixpoint int_digits (acc : Z) (s : string) : option Z :=
  match s with
  | EmptyString => Some acc
  | String c r =>
      if isdigit c then int_digits (acc * 10 + digit_value c) r
      else if Ascii.eqb c "_" then
        match r with
        | String c' _ => if isdigit c' then int_digits acc r else None
        | EmptyString => None
        end
      else None
  end.

Definition int_unsigned (s : string) : option Z :=
  match s with
  | String c _ => if isdigit c then int_digits 0 s else None
  | EmptyString => None
  end.

(** [int(s)] in base ten for an ASCII string: blanks around the literal are
    dropped, one sign is allowed; [None] stands for the [ValueError] of a
    bad literal. *)
Definition int_ascii (s : string) : option Z :=
  match trim s with
  | String c r =>
      if Ascii.eqb c "+" then int_unsigned r
      else if Ascii.eqb c "-" then option_map Z.opp (int_unsigned r)
      else int_unsigned (String c r)
  | EmptyString => None
  end.

Definition DOUBLE_QUOTE : ascii := ascii_of_nat 34.
Definition BACKSLASH : ascii := ascii_of_nat 92.

Definition hex_digit (n : nat) : ascii :=
  ascii_of_nat (if (n <? 10)%nat then 48 + n else 87 + n).

(** How [repr] shows one character inside the quote [q]. *)
Definition repr_char (q : ascii) (c : ascii) : string :=
  let n := code c in
  if Ascii.eqb c q || Ascii.eqb c BACKSLASH
  then String BACKSLASH (String c EmptyString)
  else if (n =? 9)%nat then String BACKSLASH "t"
  else if (n =? 10)%nat then String BACKSLASH "n"
  else if (n =? 13)%nat then String BACKSLASH "r"
  else if ((n <? 32) || (n =? 127))%nat then
    String BACKSLASH
      (String "x" (String (hex_digit (n / 16))
                     (String (hex_digit (n mod 16)) EmptyString)))
  else String c EmptyString.

Fixpoint repr_body (q : ascii) (s : string) : string :=
  match s with
  | EmptyString => EmptyString
  | String c r => repr_char q c ++ repr_body q r
  end.

(** [repr(s)] of an ASCII string: double quotes when the string holds an
    apostrophe and no double quote, single quotes otherwise. *)
Definition ascii_repr (s : string) : string :=
  let q := if negb (all_chars (differs "'") s)
              && all_chars (differs DOUBLE_QUOTE) s
           then DOUBLE_QUOTE else "'"%char in
  String q (repr_body q s ++ String q EmptyString).

End PyStr.

(** ** The interpreter

    [str.lower], [int] and [repr] depend on tables of the interpreter (case
    mapping, decimal digits of all scripts, printable characters) that are
    no part of the repository.  They are taken as they are, with what they
    do on ASCII text. *)

Class Python : Type := {
  py_lower : string -> string;
  py_int_of_str : string -> option Z;
  py_repr : string -> string;
  py_lower_ascii :
    forall s, PyStr.is_ascii s = true -> py_lower s = PyStr.ascii_lower s;
  py_int_ascii :
    forall s, PyStr.is_ascii s = true -> py_int_of_str s = PyStr.int_ascii s
}.

(** A literal that [int] accepts is made of blanks, a sign, digits and
    underscores: it has no letter d. *)
Definition int_literals_have_no_d (PY : Python) : Prop :=
  forall s n,
    py_int_of_str s = Some n -> PyStr.all_chars (PyStr.differs "d") s = true.

(** An interpreter without tables, to run examples on: on ASCII text it does
    what CPython does; it takes the bytes above 127 for printable letters
    that have no case and no digit value. *)
Definition ascii_python : Python :=
  {| py_lower := PyStr.ascii_lower;
     py_int_of_str := PyStr.int_ascii;
     py_repr := PyStr.ascii_repr;
     py_lower_ascii := fun _ _ => eq_refl;
     py_int_ascii := fun _ _ => eq_refl |}.

(** ** Exceptions and results *)

Inductive exn : Type :=
  | ValueError (msg : string)
  | KeyError (key : string)
  | IndexError (msg : string).

(** [str(e)] *)
Definition exn_str {PY : Python} (e : exn) : string :=
  match e with
  | ValueError msg => msg
  | KeyError key => py_repr key
  | IndexError msg => msg
  end.

Inductive result (A : Type) : Type :=
  | Ok (a : A)
  | Raise (e : exn).
Arguments Ok {A} a.
Arguments Raise {A} e.

Definition is_ok {A} (r : result A) : bool :=
  match r with Ok _ => true | Raise _ => false end.

(** ** The [random] module

    Its generator is a sequence of raw draws and a cursor; [randbelow n]
    reduces the next draw to [0 .. n-1]. *)

Record rng : Type := mkRng { draws : nat -> Z; cursor : nat }.

Definition randbelow (n : Z) (g : rng) : Z * rng :=
  (draws g (cursor g) mod n, mkRng (draws g) (S (cursor g))).

(** [random.randint(a, b)]: a value of [a .. b]. *)
Definition randint (a b : Z) (g : rng) : Z * rng :=
  let (k, g') := randbelow (b - a + 1) g in (a + k, g').

(** ** Dice *)

Definition MSG_FORMAT : string := "Dice expression must be in NdM format.".
Definition MSG_POSITIVE : string := "Number of dice and sides must be positive.".
Definition MSG_LITERAL {PY : Python} (s : string) : string :=
  "invalid literal for int() with base 10: " ++ py_repr s.

(** [int(s)] with its exception. *)
Definition py_int {PY : Python} (s : string) : result Z :=
  match py_int_of_str s with
  | Some n => Ok n
  | None => Raise (ValueError (MSG_LITERAL s))
  end.

(** [[random.randint(1, m) for _ in range(n)]] *)
Fixpoint roll_dice (n : nat) (m : Z) (g : rng) : list Z * rng :=
  match n with
  | O => ([], g)
  | S n' =>
      let (r, g1) := randint 1 m g in
      let (rs, g2) := roll_dice n' m g1 in
      (r :: rs, g2)
  end.

(** The body of the [try] of [parse_dice_expression]. *)
Definition parse_dice_body {PY : Python} (expr : string) (g : rng)
  : result (list Z) * rng :=
  let parts := PyStr.split "d" (py_lower expr) in
  match parts with
  | [p0; p1] =>
      match py_int p0 with
      | Raise e => (Raise e, g)
      | Ok n =>
          match py_int p1 with
          | Raise e => (Raise e, g)
          | Ok m =>
              if (n <=? 0) || (m <=? 0)
              then (Raise (ValueError MSG_POSITIVE), g)
              else let (rolls, g') := roll_dice (Z.to_nat n) m g in (Ok rolls, g')
          end
      end
  | _ => (Raise (ValueError MSG_FORMAT), g)
  end.

(** [parse_dice_expression]: whatever the body raises is raised again as a
    [ValueError] carrying the text of the first exception. *)
Definition parse_dice_expression {PY : Python} (expr : string) (g : rng)
  : result (list Z) * rng :=
  match parse_dice_body expr g with
  | (Ok rolls, g') => (Ok rolls, g')
  | (Raise e, g') => (Raise (ValueError (exn_str e)), g')
  end.

(** ** Documents *)

(** A Python [dict] with string keys, in insertion order. *)
Definition dict (V : Type) : Type := list (string * V).

Section Dict.
Context {V : Type}.

(** [d.get(k)] *)
Fixpoint dict_get (k : string) (d : dict V) : option V :=
  match d with
  | [] => None
  | (k', v) :: d' => if String.eqb k k' then Some v else dict_get k d'
  end.

(** [d[k] = v]: a key already there keeps its place. *)
Fixpoint dict_set (k : string) (v : V) (d : dict V) : dict V :=
  match d with
  | [] => [(k, v)]
  | (k', v') :: d' =>
      if String.eqb k k' then (k, v) :: d' else (k', v') :: dict_set k v d'
  end.

(** Every value stored under [k]; a dictionary holds at most one. *)
Definition dict_records (k : string) (d : dict V) : list V :=
  map snd (filter (fun kv => String.eqb (fst kv) k) d).

Definition dict_keys (d : dict V) : list string := map fst d.
Definition dict_values (d : dict V) : list V := map snd d.
End Dict.

(** A character sheet: the keys ["name"], ["class"] and ["items"], each
    one present or not. *)
Record character : Type := mkCharacter {
  c_name : option string;
  c_class : option string;
  c_items : option (list string)
}.

(** [char.get("items", [])] *)
Definition items_of (c : character) : list string :=
  match c_items c with Some l => l | None => [] end.

(** [not char]: a dictionary is false when it has no key. *)
Definition char_is_empty (c : character) : bool :=
  match c_name c, c_class c, c_items c with
  | None, None, None => true
  | _, _, _ => false
  end.

(** The combat record: the keys ["ongoing"], ["turn_order"] and
    ["current_index"], each one present or not. *)
Record combat : Type := mkCombat {
  ongoing : option bool;
  turn_order : option (list string);
  current_index : option Z
}.

(** [{}], also what [combat_state.clear()] leaves. *)
Definition combat_empty : combat := mkCombat None None None.

(** [combat_state.get("ongoing")] as a condition. *)
Definition combat_ongoing (cs : combat) : bool :=
  match ongoing cs with Some b => b | None => false end.

(** ** The world *)

(** A JSON file as [os.path.isfile], [open] and [json.load] see it. *)
Inductive file (A : Type) : Type :=
  | Absent
  | Unreadable (err : string)
  | Holds (doc : A).
Arguments Absent {A}.
Arguments Unreadable {A} err.
Arguments Holds {A} doc.

(** What an attempt to write a file does: it succeeds, or it fails with a
    message, leaving the file as it was ([None]) or cut short, so that a
    later read fails with the message given here. *)
Inductive write_outcome : Type :=
  | Written
  | WriteFails (err : string) (damage : option string).

Record world : Type := mkWorld {
  characters : dict character;
  combat_state : combat;
  character_file : file (dict character);
  combat_file : file combat;
  random : rng;
  io_faults : nat -> write_outcome;   (* the k-th write of the run *)
  io_clock : nat;
  completion : string -> result string;   (* the completion service *)
  client_user : Z;
  sent : list string;      (* channel, oldest first *)
  printed : list string;   (* standard output, oldest first *)
  python : Python          (* the interpreter the bot runs on *)
}.

Definition CHARACTER_FILE : string := "character_data.json".
Definition COMBAT_FILE : string := "combat_data.json".

(** A computation over the world that may raise. *)
Definition M (A : Type) : Type := world -> result A * world.

Definition ret {A} (a : A) : M A := fun w => (Ok a, w).
Definition raise {A} (e : exn) : M A := fun w => (Raise e, w).
Definition bind {A B} (m : M A) (k : A -> M B) : M B :=
  fun w => match m w with
           | (Ok a, w') => k a w'
           | (Raise e, w') => (Raise e, w')
           end.

Notation "x <- m ;; k" := (bind m (fun x => k))
  (at level 61, m at next level, right associativity).
Notation "m ;;; k" := (bind m (fun _ => k))
  (at level 61, right associativity).

Definition get_world : M world := fun w => (Ok w, w).

Definition set_characters (d : dict character) : M unit := fun w =>
  (Ok tt, mkWorld d (combat_state w) (character_file w) (combat_file w)
            (random w) (io_faults w) (io_clock w) (completion w)
            (client_user w) (sent w) (printed w) (python w)).

Definition set_combat_state (cs : combat) : M unit := fun w =>
  (Ok tt, mkWorld (characters w) cs (character_file w) (combat_file w)
            (random w) (io_faults w) (io_clock w) (completion w)
            (client_user w) (sent w) (printed w) (python w)).

Definition set_random (g : rng) : M unit := fun w =>
  (Ok tt, mkWorld (characters w) (combat_state w) (character_file w)
            (combat_file w) g (io_faults w) (io_clock w) (completion w)
            (client_user w) (sent w) (printed w) (python w)).

(** [await message.channel.send(text)] *)
Definition send (text : string) : M unit := fun w =>
  (Ok tt, mkWorld (characters w) (combat_state w) (character_file w)
            (combat_file w) (random w) (io_faults w) (io_clock w)
            (completion w) (client_user w) (sent w ++ [text]) (printed w)
            (python w)).

(** [print(text)] *)
Definition print (text : string) : M unit := fun w =>
  (Ok tt, mkWorld (characters w) (combat_state w) (character_file w)
            (combat_file w) (random w) (io_faults w) (io_clock w)
            (completion w) (client_user w) (sent w) (printed w ++ [text])
            (python w)).

(** ** Persistence *)

Definition damaged {A} (damage : option string) (f : file A) : file A :=
  match damage with Some err => Unreadable err | None => f end.

(** [load_data]: a file that is there replaces the dictionary, or empties
    it when it cannot be read; a file that is not there is skipped. *)
Definition load_data : M unit :=
  w <- get_world ;;
  match character_file w with
  | Absent => ret tt
  | Holds doc => set_characters doc
  | Unreadable err =>
      print ("Error loading " ++ CHARACTER_FILE ++ ": " ++ err) ;;;
      set_characters []
  end ;;;
  match combat_file w with
  | Absent => ret tt
  | Holds doc => set_combat_state doc
  | Unreadable err =>
      print ("Error loading " ++ COMBAT_FILE ++ ": " ++ err) ;;;
      set_combat_state combat_empty
  end.

Definition save_characters : M unit := fun w =>
  let w' := fun f p =>
    mkWorld (characters w) (combat_state w) f (combat_file w) (random w)
            (io_faults w) (S (io_clock w)) (completion w) (client_user w)
            (sent w) p (python w) in
  match io_faults w (io_clock w) with
  | Written => (Ok tt, w' (Holds (characters w)) (printed w))
  | WriteFails err damage =>
      (Ok tt,
       w' (damaged damage (character_file w))
          (printed w ++ [("Error saving characters: " ++ err)%string])%list)
  end.

Definition save_combat : M unit := fun w =>
  let w' := fun f p =>
    mkWorld (characters w) (combat_state w) (character_file w) f (random w)
            (io_faults w) (S (io_clock w)) (completion w) (client_user w)
            (sent w) p (python w) in
  match io_faults w (io_clock w) with
  | Written => (Ok tt, w' (Holds (combat_state w)) (printed w))
  | WriteFails err damage =>
      (Ok tt,
       w' (damaged damage (combat_file w))
          (printed w ++ [("Error saving combat state: " ++ err)%string])%list)
  end.

(** ** Replies *)

(** The pictograms that open some replies, as the bytes of the source. *)
Definition icon (bytes : list nat) : string :=
  fold_right (fun n s => String (ascii_of_nat n) s) EmptyString bytes.

Definition ICON_WARNING : string :=
  icon [195; 162; 197; 161; 194; 160; 195; 175; 194; 184]%nat.
Definition ICON_DICE : string := icon [196; 159; 197; 184; 194; 178]%nat.
Definition ICON_SHEET : string :=
  icon [196; 159; 197; 184; 226; 128; 156; 197; 147]%nat.
Definition ICON_COMBAT : string :=
  icon [195; 162; 197; 161; 226; 128; 157; 195; 175; 194; 184]%nat.
Definition ICON_STOP : string :=
  icon [196; 159; 197; 184; 226; 128; 186; 226; 128; 152]%nat.
Definition NEWLINE : string := String (ascii_of_nat 10) EmptyString.

Definition REPLY_DND_USAGE : string :=
  "Please provide an action or query after !dnd.".
Definition REPLY_NAME_MISSING : string :=
  "Please provide a name for your character.".
Definition REPLY_NO_SHEET : string :=
  "You don't have a character yet. Use !createchar <name> to create one.".
Definition REPLY_NO_CHARACTER : string :=
  "Create a character first using !createchar.".
Definition REPLY_CLASS_MISSING : string := "Please specify a class.".
Definition REPLY_ITEM_MISSING : string := "Please specify an item to add.".
Definition REPLY_ALREADY_ACTIVE : string := "Combat is already in progress.".
Definition REPLY_NO_CHARACTERS : string :=
  "No characters exist to start combat.".
Definition REPLY_NOT_ACTIVE : string := "No combat is currently in progress.".

Definition reply_invalid_expression (msg : string) : string :=
  ICON_WARNING ++ " " ++ msg.
Definition reply_rolled (rolls : list Z) : string :=
  ICON_DICE ++ " You rolled: "
  ++ PyStr.join "+" (map PyStr.str_of_int rolls)
  ++ " = " ++ PyStr.str_of_int (fold_right Z.add 0 rolls).
Definition reply_created (name : string) : string :=
  "Character '" ++ name ++ "' created!".
Definition reply_class_set (class_name name : string) : string :=
  "Class set to " ++ class_name ++ " for " ++ name ++ ".".
Definition reply_item_added (item_name name : string) : string :=
  "Added " ++ item_name ++ " to " ++ name ++ "'s inventory.".
Definition reply_turn (name : string) : string :=
  "It is now " ++ name ++ "'s turn.".
Definition reply_combat_begins (order : list string) (first : string) : string :=
  ICON_COMBAT ++ " Combat begins! Turn order: " ++ PyStr.join ", " order
  ++ NEWLINE ++ reply_turn first.
Definition reply_combat_ended : string := ICON_STOP ++ " Combat has ended.".

(** ** Lists as Python has them *)

(** [l[i]]: a negative index counts from the end. *)
Definition py_index {A} (l : list A) (i : Z) : result A :=
  let n := Z.of_nat (List.length l) in
  let j := if i <? 0 then i + n else i in
  if (j <? 0) || (n <=? j) then Raise (IndexError "list index out of range")
  else match nth_error l (Z.to_nat j) with
       | Some a => Ok a
       | None => Raise (IndexError "list index out of range")
       end.

Fixpoint list_set {A} (l : list A) (i : nat) (a : A) : list A :=
  match l, i with
  | [], _ => []
  | _ :: r, O => a :: r
  | b :: r, S i' => b :: list_set r i' a
  end.

(** [x[i], x[j] = x[j], x[i]] *)
Definition swap {A} (x : list A) (i j : nat) : list A :=
  match nth_error x i, nth_error x j with
  | Some a, Some b => list_set (list_set x i b) j a
  | _, _ => x
  end.

(** The loop of [random.shuffle]:
    [for i in reversed(range(1, len(x))): j = randbelow(i + 1); swap]. *)
Fixpoint shuffle_from (i : nat) (x : list string) (g : rng)
  : list string * rng :=
  match i with
  | O => (x, g)
  | S i' =>
      let (j, g') := randbelow (Z.of_nat i + 1) g in
      shuffle_from i' (swap x i (Z.to_nat j)) g'
  end.

Definition shuffle (x : list string) (g : rng) : list string * rng :=
  shuffle_from (List.length x - 1) x g.

(** ** The commands *)

Record message : Type := mkMessage { author : Z; content : string }.

(** [str(message.author.id)] *)
Definition user_id_of (m : message) : string := PyStr.str_of_int (author m).

(** [characters.get(user_id)] followed by [if not char]: the record, when
    there is one with at least one key. *)
Definition get_char (user_id : string) (d : dict character)
  : option character :=
  match dict_get user_id d with
  | Some char => if char_is_empty char then None else Some char
  | None => None
  end.

(** [char['name']] *)
Definition char_name (char : character) : M string :=
  match c_name char with
  | Some name => ret name
  | None => raise (KeyError "name")
  end.

(** [[c["name"] for c in characters.values()]] *)
Fixpoint names_of (cs : list character) : result (list string) :=
  match cs with
  | [] => Ok []
  | c :: cs' =>
      match c_name c with
      | None => Raise (KeyError "name")
      | Some name =>
          match names_of cs' with
          | Ok names => Ok (name :: names)
          | Raise e => Raise e
          end
      end
  end.

Definition lift {A} (r : result A) : M A := fun w => (r, w).

Definition cmd_dnd (content : string) : M unit :=
  let prompt := PyStr.strip (PyStr.slice_from 4 content) in
  if PyStr.is_empty prompt then send REPLY_DND_USAGE
  else
    w <- get_world ;;
    match completion w prompt with
    | Ok reply => send (PyStr.strip reply)
    | Raise e =>
        send (ICON_WARNING ++ " Error contacting OpenAI: "
              ++ exn_str (PY := python w) e)
    end.

Definition cmd_roll (content : string) : M unit :=
  let expr := PyStr.strip (PyStr.slice_from 5 content) in
  w <- get_world ;;
  let (r, g) := parse_dice_expression (PY := python w) expr (random w) in
  set_random g ;;;
  match r with
  | Ok rolls => send (reply_rolled rolls)
  | Raise (ValueError msg) => send (reply_invalid_expression msg)
  | Raise e => raise e
  end.

Definition cmd_createchar (m : message) (content : string) : M unit :=
  let name := PyStr.strip (PyStr.slice_from (String.length "!createchar") content) in
  if PyStr.is_empty name then send REPLY_NAME_MISSING
  else
    w <- get_world ;;
    set_characters
      (dict_set (user_id_of m) (mkCharacter (Some name) (Some "") (Some []))
                (characters w)) ;;;
    save_characters ;;;
    send (reply_created name).

Definition cmd_sheet (m : message) : M unit :=
  w <- get_world ;;
  match get_char (user_id_of m) (characters w) with
  | None => send REPLY_NO_SHEET
  | Some char =>
      let name := match c_name char with Some n => n | None => "Unnamed" end in
      let char_class :=
        match c_class char with
        | Some c => if PyStr.is_empty c then "Unassigned" else c
        | None => "Unassigned"
        end in
      let items := items_of char in
      let item_list :=
        match items with [] => "No items" | _ => PyStr.join ", " items end in
      send (ICON_SHEET ++ " **" ++ name ++ "** (Class: " ++ char_class ++ ")"
            ++ NEWLINE ++ "Inventory: " ++ item_list)
  end.

Definition cmd_setclass (m : message) (content : string) : M unit :=
  let class_name := PyStr.strip (PyStr.slice_from (String.length "!setclass") content) in
  let user_id := user_id_of m in
  w <- get_world ;;
  match get_char user_id (characters w) with
  | None => send REPLY_NO_CHARACTER
  | Some char =>
      if PyStr.is_empty class_name then send REPLY_CLASS_MISSING
      else
        set_characters
          (dict_set user_id
             (mkCharacter (c_name char) (Some class_name) (c_items char))
             (characters w)) ;;;
        save_characters ;;;
        name <- char_name char ;;
        send (reply_class_set class_name name)
  end.

Definition cmd_additem (m : message) (content : string) : M unit :=
  let item_name := PyStr.strip (PyStr.slice_from (String.length "!additem") content) in
  let user_id := user_id_of m in
  w <- get_world ;;
  match get_char user_id (characters w) with
  | None => send REPLY_NO_CHARACTER
  | Some char =>
      if PyStr.is_empty item_name then send REPLY_ITEM_MISSING
      else
        set_characters
          (dict_set user_id
             (mkCharacter (c_name char) (c_class char)
                          (Some (items_of char ++ [item_name])%list))
             (characters w)) ;;;
        save_characters ;;;
        name <- char_name char ;;
        send (reply_item_added item_name name)
  end.

Definition cmd_startcombat : M unit :=
  w <- get_world ;;
  if combat_ongoing (combat_state w) then send REPLY_ALREADY_ACTIVE
  else
    names <- lift (names_of (dict_values (characters w))) ;;
    match names with
    | [] => send REPLY_NO_CHARACTERS
    | _ =>
        let (order, g) := shuffle names (random w) in
        set_random g ;;;
        set_combat_state (mkCombat (Some true) (Some order) (Some 0)) ;;;
        save_combat ;;;
        first <- lift (py_index order 0) ;;
        send (reply_combat_begins order first)
    end.

(** [(idx + 1) % len(turn_order) if turn_order else 0] *)
Definition next_index (order : list string) (idx : Z) : Z :=
  match order with
  | [] => 0
  | _ => (idx + 1) mod Z.of_nat (List.length order)
  end.

Definition cmd_endturn : M unit :=
  w <- get_world ;;
  let cs := combat_state w in
  if negb (combat_ongoing cs) then send REPLY_NOT_ACTIVE
  else
    let order := match turn_order cs with Some l => l | None => [] end in
    let idx := match current_index cs with Some i => i | None => 0 end in
    let idx := next_index order idx in
    set_combat_state (mkCombat (ongoing cs) (turn_order cs) (Some idx)) ;;;
    save_combat ;;;
    name <- lift (py_index order idx) ;;
    send (reply_turn name).

Definition cmd_endcombat : M unit :=
  w <- get_world ;;
  if negb (combat_ongoing (combat_state w)) then send REPLY_NOT_ACTIVE
  else
    set_combat_state combat_empty ;;;
    save_combat ;;;
    send reply_combat_ended.

(** [on_message]: the first prefix that matches decides. *)
Definition on_message (m : message) : M unit :=
  w <- get_world ;;
  if author m =? client_user w then ret tt
  else
    let content := PyStr.strip (content m) in
    if PyStr.startswith "!dnd" content then cmd_dnd content
    else if PyStr.startswith "!roll" content then cmd_roll content
    else if PyStr.startswith "!createchar" content then cmd_createchar m content
    else if PyStr.startswith "!sheet" content then cmd_sheet m
    else if PyStr.startswith "!setclass" content then cmd_setclass m content
    else if PyStr.startswith "!additem" content then cmd_additem m content
    else if PyStr.startswith "!startcombat" content then cmd_startcombat
    else if PyStr.startswith "!endturn" content then cmd_endturn
    else if PyStr.startswith "!endcombat" content then cmd_endcombat
    else ret tt.

(** [on_ready]; the account of the bot is shown by its id. *)
Definition on_ready : M unit :=
  w <- get_world ;;
  print ("Logged in as " ++ PyStr.str_of_int (client_user w)) ;;;
  load_data.

(** The world after a handler, whether it returned or raised. *)
Definition exec {A} (m : M A) (w : world) : world := snd (m w).
Definition outcome {A} (m : M A) (w : world) : result A := fst (m w).

(** The replies a handler added to the channel. *)
Definition replies {A} (m : M A) (w : world) : list string :=
  skipn (List.length (sent w)) (sent (exec m w)).

(** The name of who acts now: [turn_order[current_index]]. *)
Definition acting (cs : combat) : option string :=
  match turn_order cs, current_index cs with
  | Some order, Some i =>
      match py_index order i with Ok name => Some name | Raise _ => None end
  | _, _ => None
  end.

(** The combat record satisfies its invariant: while a combat goes on, the
    turn order is not empty and the index points into it. *)
Definition combat_wf (cs : combat) : Prop :=
  combat_ongoing cs = true ->
  exists order i,
    turn_order cs = Some order /\ order <> []
    /\ current_index cs = Some i
    /\ 0 <= i < Z.of_nat (List.length order).

(** A handler leaves a component of the world as it found it. *)
Definition preserves {A X} (f : world -> X) (m : M A) : Prop :=
  forall w, f (snd (m w)) = f w.

(** ** Sample worlds *)

Definition all_written : nat -> write_outcome := fun _ => Written.
Definition no_completion : string -> result string :=
  fun _ => Raise (ValueError "service unavailable").

Definition zero_rng : rng := mkRng (fun _ => 0) 0.
Definition count_rng : rng := mkRng (fun k => Z.of_nat k * 7 + 3) 0.

Definition fresh_world : world :=
  mkWorld [] combat_empty Absent Absent count_rng all_written 0
          no_completion 0 [] [] ascii_python.

Definition msg (who : Z) (text : string) : message := mkMessage who text.

(** The worlds the bot can be in: it starts idle, with any characters, and
    handles one message after the other. *)
Inductive reachable : world -> Prop :=
  | reach_idle (w : world) :
      combat_ongoing (combat_state w) = false -> reachable w
  | reach_message (w : world) (m : message) :
      reachable w -> reachable (exec (on_message m) w).

(** Three adventurers, nobody fighting. *)
Definition party_world : world :=
  mkWorld [ ("11", mkCharacter (Some "A") (Some "") (Some []));
            ("12", mkCharacter (Some "B") (Some "Wizard") (Some ["Staff"]));
            ("13", mkCharacter (Some "C") (Some "") (Some [])) ]
          combat_empty Absent Absent count_rng all_written 0
          no_completion 0 [] [] ascii_python.

(** A combat file edited by hand: a combat goes on, nobody takes part. *)
Definition tampered_world : world :=
  mkWorld [] combat_empty Absent
          (Holds (mkCombat (Some true) (Some []) (Some 0)))
          count_rng all_written 0 no_completion 0 [] [] ascii_python.

(** The bot made ready on the edited combat file. *)
Definition tampered_ready : world := exec on_ready tampered_world.

(** A process whose working directory cannot be written. *)
Definition readonly_world : world :=
  mkWorld [] combat_empty Absent Absent count_rng
          (fun _ => WriteFails "Read-only file system" None) 0
          no_completion 0 [] [] ascii_python.

(** A character was created there: it lives in memory only. *)
Definition unsaved_world : world :=
  exec (on_message (mkMessage 11 "!createchar Bram")) readonly_world.

(** Both files are there and neither can be parsed. *)
Definition corrupt_world : world :=
  mkWorld [("11", mkCharacter (Some "A") (Some "") (Some []))]
          (mkCombat (Some true) (Some ["A"]) (Some 0))
          (Unreadable "Expecting value: line 1 column 1 (char 0)")
          (Unreadable "Expecting value: line 1 column 1 (char 0)")
          count_rng all_written 0 no_completion 0 [] [] ascii_python.

(** Runs the messages in order, whatever each handler does. *)
Fixpoint run (ms : list message) (w : world) : world :=
  match ms with
  | [] => w
  | m :: ms' => run ms' (exec (on_message m) w)
  end.

(** ** The pattern of a dice expression, as the specification words it

    An expression matches [<N>d<M>], letter case apart, when it can be cut
    at a letter d so that both sides are literals of positive integers,
    that is, texts that [int] of the interpreter turns into such numbers. *)

Definition positive_literal {PY : Python} (s : string) : bool :=
  match py_int_of_str s with
  | Some n => 0 <? n
  | None => false
  end.

Fixpoint matches_after {PY : Python} (before rest : string) : bool :=
  match rest with
  | EmptyString => false
  | String c r =>
      (Ascii.eqb c "d" && positive_literal before && positive_literal r)
      || matches_after (before ++ String c EmptyString) r
  end.

Definition matches_NdM {PY : Python} (expr : string) : bool :=
  matches_after EmptyString (py_lower expr).

(** The expression [f"{n}d{m}"]. *)
Definition dice_expression (n m : Z) : string :=
  PyStr.str_of_int n ++ "d" ++ PyStr.str_of_int m.

(** The value of a decimal numeral, read from the left onto [acc]. *)
Fixpoint uint_value (u : Decimal.uint) (acc : Z) : Z :=
  match u with
  | Decimal.Nil => acc
  | Decimal.D0 l => uint_value l (acc * 10 + 0)
  | Decimal.D1 l => uint_value l (acc * 10 + 1)
  | Decimal.D2 l => uint_value l (acc * 10 + 2)
  | Decimal.D3 l => uint_value l (acc * 10 + 3)
  | Decimal.D4 l => uint_value l (acc * 10 + 4)
  | Decimal.D5 l => uint_value l (acc * 10 + 5)
  | Decimal.D6 l => uint_value l (acc * 10 + 6)
  | Decimal.D7 l => uint_value l (acc * 10 + 7)
  | Decimal.D8 l => uint_value l (acc * 10 + 8)
  | Decimal.D9 l => uint_value l (acc * 10 + 9)
  end.

(** ** Notions for what the handlers keep *)

(** [sum(rolls)] *)
Definition total (rolls : list Z) : Z := fold_right Z.add 0 rolls.

(** The prefixes [on_message] tests, in the order of its tests. *)
Definition COMMANDS : list string :=
  [ "!dnd"; "!roll"; "!createchar"; "!sheet"; "!setclass"; "!additem";
    "!startcombat"; "!endturn"; "!endcombat" ].

(** The prefixes that the stripped text of a message starts with. *)
Definition commands_of (text : string) : list string :=
  filter (fun p => PyStr.startswith p (PyStr.strip text)) COMMANDS.

(** A record with a name that is not empty. *)
Definition named (c : character) : Prop :=
  exists name, c_name c = Some name /\ name <> "".

(** The registry is a dictionary (no key twice) of named records. *)
Definition registry_wf (d : dict character) : Prop :=
  NoDup (dict_keys d) /\ Forall named (dict_values d).

Definition world_wf (w : world) : Prop :=
  registry_wf (characters w) /\ combat_wf (combat_state w).

(** A file agrees with the document in memory: it holds it, or it is not
    there and the document is the one a process starts with. *)
Definition file_synced {A} (f : file A) (doc start : A) : Prop :=
  match f with
  | Absent => doc = start
  | Unreadable _ => False
  | Holds d => d = doc
  end.

Definition synced (w : world) : Prop :=
  file_synced (character_file w) (characters w) []
  /\ file_synced (combat_file w) (combat_state w) combat_empty.

(** The process stops and starts again on the same files: the module-level
    dictionaries are empty again, then [on_ready] runs. *)
Definition restart (w : world) : world :=
  exec on_ready
    (mkWorld [] combat_empty (character_file w) (combat_file w) (random w)
             (io_faults w) (io_clock w) (completion w) (client_user w)
             (sent w) (printed w) (python w)).

(** Two blank characters that are not ASCII, in UTF-8. *)
Definition NO_BREAK_SPACE : string := icon [194; 160]%nat.
Definition IDEOGRAPHIC_SPACE : string := icon [227; 128; 128]%nat.

(** A registry edited by hand: the second record has no name. *)
Definition nameless_world : world :=
  mkWorld [ ("11", mkCharacter (Some "A") (Some "") (Some []));
            ("12", mkCharacter None (Some "Rogue") None) ]
          combat_empty Absent Absent count_rng all_written 0
          no_completion 0 [] [] ascii_python.

(** A combat whose index was edited by hand to point outside the order. *)
Definition stray_index_world : world :=
  mkWorld [] (mkCombat (Some true) (Some ["A"; "B"; "C"]) (Some (-5)))
          Absent Absent count_rng all_written 0 no_completion 0 [] [] ascii_python.

(** A handler ends normally after sending exactly one message. *)
Definition answers (m : M unit) (w : world) : Prop :=
  outcome m w = Ok tt
  /\ exists text, sent (exec m w) = (sent w ++ [text])%list.

(** A handler adds nothing to the channel, or one message. *)
Definition sends_at_most_one {A} (m : M A) : Prop :=
  forall w,
    sent (snd (m w)) = sent w
    \/ exists text, sent (snd (m w)) = (sent w ++ [text])%list.

(** The text of a sheet. *)
Definition sheet_text (name class items : string) : string :=
  ICON_SHEET ++ " **" ++ name ++ "** (Class: " ++ class ++ ")"
  ++ NEWLINE ++ "Inventory: " ++ items.

(** * Properties *)

(** ** Strings *)

Module PyStrFacts.
Import PyStr.

Lemma startswith_app (p r : string) : startswith p (p ++ r) = true.
Proof.
  induction p as [|c p IH]; simpl; [reflexivity|].
  now rewrite Ascii.eqb_refl.
Qed.

Lemma startswith_inv (p s : string) :
  startswith p s = true -> exists r, s = p ++ r.
Proof.
  revert s; induction p as [|c p IH]; intros s H; simpl in *.
  - now exists s.
  - destruct s as [|b s]; [discriminate|].
    apply andb_true_iff in H as [Hc Hs].
    apply Ascii.eqb_eq in Hc; subst b.
    destruct (IH _ Hs) as [r ->]. now exists r.
Qed.

Lemma split_nonempty (sep : ascii) (s : string) : split sep s <> [].
Proof.
  induction s as [|c r IH]; simpl; [discriminate|].
  destruct (Ascii.eqb c sep); [discriminate|].
  destruct (split sep r); [contradiction|discriminate].
Qed.

(** Joining what [split] returns gives the string back. *)
Lemma join_split (sep : ascii) (s : string) :
  join (String sep EmptyString) (split sep s) = s.
Proof.
  induction s as [|c r IH]; simpl; [reflexivity|].
  pose proof (split_nonempty sep r) as Hne.
  destruct (Ascii.eqb_spec c sep) as [->|Hc].
  - destruct (split sep r) as [|p ps]; [contradiction|].
    simpl in *. now rewrite IH.
  - destruct (split sep r) as [|p ps]; [contradiction|].
    destruct ps as [|q qs]; simpl in *; now rewrite <- IH.
Qed.

Lemma split_two (sep : ascii) (s a b : string) :
  split sep s = [a; b] -> s = a ++ String sep b.
Proof.
  intros H. rewrite <- (join_split sep s), H. reflexivity.
Qed.

Lemma split_free (sep : ascii) (s : string) :
  all_chars (differs sep) s = true -> split sep s = [s].
Proof.
  induction s as [|c r IH]; simpl; [reflexivity|].
  unfold differs at 1. intros H. apply andb_true_iff in H as [Hc Hr].
  apply negb_true_iff in Hc. rewrite Hc, (IH Hr). reflexivity.
Qed.

Lemma split_app (sep : ascii) (a b : string) :
  all_chars (differs sep) a = true ->
  split sep (a ++ String sep b) = a :: split sep b.
Proof.
  induction a as [|c r IH]; simpl.
  - now rewrite Ascii.eqb_refl.
  - unfold differs at 1. intros H. apply andb_true_iff in H as [Hc Hr].
    apply negb_true_iff in Hc. rewrite Hc, (IH Hr). reflexivity.
Qed.

Lemma all_chars_impl (p q : ascii -> bool) (s : string) :
  (forall c, p c = true -> q c = true) ->
  all_chars p s = true -> all_chars q s = true.
Proof.
  intros Hpq. induction s as [|c r IH]; simpl; [reflexivity|].
  intros H. apply andb_true_iff in H as [Hc Hr].
  now rewrite (Hpq _ Hc), (IH Hr).
Qed.

Lemma isdigit_bounds (c : ascii) :
  isdigit c = true -> (48 <= code c <= 57)%nat.
Proof.
  unfold isdigit. intros H. apply andb_true_iff in H as [H1 H2].
  apply Nat.leb_le in H1, H2. lia.
Qed.

Lemma digit_not_blank (c : ascii) : isdigit c = true -> isblank c = false.
Proof.
  intros H. apply isdigit_bounds in H. unfold isblank.
  destruct (Nat.leb_spec 9 (code c)), (Nat.leb_spec (code c) 13),
    (Nat.eqb_spec (code c) 32);
    simpl; try reflexivity; lia.
Qed.

Lemma digit_ascii (c : ascii) : isdigit c = true -> (code c <? 128)%nat = true.
Proof. intros H. apply isdigit_bounds in H. apply Nat.ltb_lt. lia. Qed.

Lemma digits_ascii (s : string) :
  all_chars isdigit s = true -> is_ascii s = true.
Proof. apply all_chars_impl. exact digit_ascii. Qed.

Lemma all_chars_app (p : ascii -> bool) (a b : string) :
  all_chars p (a ++ b) = all_chars p a && all_chars p b.
Proof.
  induction a as [|c r IH]; simpl; [reflexivity|].
  now rewrite IH, andb_assoc.
Qed.

Lemma digit_lower (c : ascii) : isdigit c = true -> lower_char c = c.
Proof.
  intros H. apply isdigit_bounds in H. unfold lower_char.
  destruct (Nat.leb_spec 65 (code c)); simpl; [lia|reflexivity].
Qed.

Lemma digit_differs_d (c : ascii) : isdigit c = true -> differs "d" c = true.
Proof.
  intros H. unfold differs. destruct (Ascii.eqb_spec c "d") as [->|];
    [discriminate H|reflexivity].
Qed.

Lemma lower_digits (s : string) :
  all_chars isdigit s = true -> ascii_lower s = s.
Proof.
  induction s as [|c r IH]; simpl; [reflexivity|].
  intros H. apply andb_true_iff in H as [Hc Hr].
  now rewrite (digit_lower _ Hc), (IH Hr).
Qed.

Lemma lower_app (a b : string) :
  ascii_lower (a ++ b) = ascii_lower a ++ ascii_lower b.
Proof. induction a as [|c r IH]; simpl; [reflexivity|now rewrite IH]. Qed.

Lemma trim_right_digits (s : string) :
  all_chars isdigit s = true -> trim_right s = s.
Proof.
  induction s as [|c r IH]; simpl; [reflexivity|].
  intros H. apply andb_true_iff in H as [Hc Hr].
  rewrite (IH Hr), (digit_not_blank _ Hc). now destruct r.
Qed.

Lemma trim_digits (s : string) : all_chars isdigit s = true -> trim s = s.
Proof.
  intros H. unfold trim.
  assert (trim_left s = s) as ->.
  { destruct s as [|c r]; simpl in *; [reflexivity|].
    apply andb_true_iff in H as [Hc _]. now rewrite (digit_not_blank _ Hc). }
  now apply trim_right_digits.
Qed.

End PyStrFacts.

(** ** Decimal numerals: [int(str(n)) = n] *)

Module Numerals.
Import PyStr PyStrFacts.

Lemma digits_of_uint (u : Decimal.uint) :
  all_chars isdigit (NilEmpty.string_of_uint u) = true.
Proof. induction u; simpl; auto. Qed.

Lemma int_digits_of_uint (u : Decimal.uint) (acc : Z) :
  int_digits acc (NilEmpty.string_of_uint u) = Some (uint_value u acc).
Proof. revert acc; induction u; intros acc; simpl; auto. Qed.

Lemma uint_value_acc (u : Decimal.uint) (p : positive) :
  uint_value u (Z.pos p) = Z.pos (Pos.of_uint_acc u p).
Proof.
  revert p; induction u; intros p; cbn [uint_value Pos.of_uint_acc];
    try reflexivity;
    match goal with
    | |- uint_value _ ?z = Z.pos (Pos.of_uint_acc _ ?q) =>
        replace z with (Z.pos q) by lia; apply IHu
    end.
Qed.

Lemma uint_value_of_uint (u : Decimal.uint) :
  uint_value u 0 = Z.of_N (Pos.of_uint u).
Proof.
  induction u; cbn [uint_value Pos.of_uint Z.of_N];
    try reflexivity; try exact IHu;
    match goal with
    | |- uint_value _ ?z = Z.pos (Pos.of_uint_acc _ ?q) =>
        change z with (Z.pos q); apply uint_value_acc
    end.
Qed.

Lemma str_of_pos (p : positive) :
  str_of_int (Z.pos p) = NilEmpty.string_of_uint (Pos.to_uint p).
Proof.
  unfold str_of_int; simpl. unfold NilZero.string_of_uint.
  pose proof (DecimalPos.Unsigned.to_uint_nonnil p) as Hn.
  destruct (Pos.to_uint p); [contradiction| reflexivity ..].
Qed.

Lemma digits_of_pos (p : positive) :
  all_chars isdigit (str_of_int (Z.pos p)) = true.
Proof. rewrite str_of_pos. apply digits_of_uint. Qed.

Lemma int_unsigned_of_uint (u : Decimal.uint) :
  u <> Decimal.Nil ->
  int_unsigned (NilEmpty.string_of_uint u) = Some (uint_value u 0).
Proof.
  intros Hn. destruct u; [contradiction| ..]; unfold int_unsigned;
    cbn [NilEmpty.string_of_uint]; change (isdigit _) with true; cbv iota;
    match goal with
    | |- _ = Some (uint_value ?v 0) => exact (int_digits_of_uint v 0)
    end.
Qed.

Lemma int_unsigned_pos (p : positive) :
  int_unsigned (str_of_int (Z.pos p)) = Some (Z.pos p).
Proof.
  rewrite str_of_pos, int_unsigned_of_uint
    by apply DecimalPos.Unsigned.to_uint_nonnil.
  now rewrite uint_value_of_uint, DecimalPos.Unsigned.of_to.
Qed.

Lemma first_digit (s : string) :
  all_chars isdigit s = true ->
  match s with
  | String c _ => Ascii.eqb c "+" = false /\ Ascii.eqb c "-" = false
  | EmptyString => True
  end.
Proof.
  destruct s as [|c r]; simpl; [trivial|].
  intros H. apply andb_true_iff in H as [Hc _].
  split; [destruct (Ascii.eqb_spec c "+") as [->|]
         |destruct (Ascii.eqb_spec c "-") as [->|]];
    try reflexivity; discriminate Hc.
Qed.

(** [int(str(n)) = n] for every integer. *)
Lemma int_ascii_of_int (n : Z) : int_ascii (str_of_int n) = Some n.
Proof.
  destruct n as [|p|p].
  - reflexivity.
  - unfold int_ascii. pose proof (digits_of_pos p) as Hd.
    rewrite (trim_digits _ Hd). pose proof (int_unsigned_pos p) as Hp.
    pose proof (first_digit _ Hd) as Hf.
    destruct (str_of_int (Z.pos p)) as [|c r]; [discriminate Hp|].
    destruct Hf as [-> ->]. exact Hp.
  - unfold int_ascii.
    assert (str_of_int (Z.neg p) = String "-" (str_of_int (Z.pos p))) as ->.
    { rewrite str_of_pos. unfold str_of_int; simpl.
      unfold NilZero.string_of_uint.
      pose proof (DecimalPos.Unsigned.to_uint_nonnil p) as Hn.
      destruct (Pos.to_uint p); [contradiction| reflexivity ..]. }
    pose proof (digits_of_pos p) as Hd.
    assert (trim (String "-" (str_of_int (Z.pos p)))
            = String "-" (str_of_int (Z.pos p))) as ->.
    { unfold trim. change (trim_left (String "-" ?r)) with (String "-" r).
      cbn [trim_right]. rewrite (trim_right_digits _ Hd).
      now destruct (str_of_int (Z.pos p)). }
    change (Ascii.eqb "-" "+") with false.
    change (Ascii.eqb "-" "-") with true. cbv iota.
    now rewrite int_unsigned_pos.
Qed.

End Numerals.

(** ** Dice *)

Module Dice.
Import PyStr PyStrFacts Numerals.

Section Roller.
Context {PY : Python}.

Lemma randint_range (m : Z) (g : rng) :
  0 < m -> 1 <= fst (randint 1 m g) <= m.
Proof.
  intros Hm. unfold randint, randbelow; cbn [fst].
  replace (m - 1 + 1) with m by lia.
  pose proof (Z.mod_pos_bound (draws g (cursor g)) m Hm). lia.
Qed.

Lemma roll_dice_length (n : nat) (m : Z) (g : rng) :
  List.length (fst (roll_dice n m g)) = n.
Proof.
  revert g; induction n as [|n IH]; intros g; cbn [roll_dice];
    [reflexivity|].
  destruct (randint 1 m g) as [r g1].
  specialize (IH g1). destruct (roll_dice n m g1) as [rs g2].
  cbn [fst List.length] in *. now rewrite IH.
Qed.

Lemma roll_dice_range (n : nat) (m : Z) (g : rng) :
  0 < m -> Forall (fun r => 1 <= r <= m) (fst (roll_dice n m g)).
Proof.
  intros Hm. revert g; induction n as [|n IH]; intros g; cbn [roll_dice];
    [constructor|].
  pose proof (randint_range m g Hm) as Hr.
  destruct (randint 1 m g) as [r g1].
  specialize (IH g1). destruct (roll_dice n m g1) as [rs g2].
  cbn [fst] in *. now constructor.
Qed.

Lemma split_dice_expression (n m : positive) :
  split "d" (py_lower (dice_expression (Z.pos n) (Z.pos m)))
  = [str_of_int (Z.pos n); str_of_int (Z.pos m)].
Proof.
  unfold dice_expression.
  pose proof (digits_of_pos n) as Hn. pose proof (digits_of_pos m) as Hm.
  rewrite py_lower_ascii.
  2:{ unfold is_ascii. rewrite all_chars_app. cbn [all_chars append].
      fold (is_ascii (str_of_int (Z.pos n))).
      fold (is_ascii (str_of_int (Z.pos m))).
      now rewrite (digits_ascii _ Hn), (digits_ascii _ Hm). }
  rewrite lower_app, (lower_digits _ Hn). cbn [ascii_lower append].
  change (lower_char "d") with "d"%char. rewrite (lower_digits _ Hm).
  rewrite split_app, split_free; try reflexivity;
    apply (all_chars_impl isdigit _ _ digit_differs_d); assumption.
Qed.

Lemma matches_after_cut (before a b : string) :
  positive_literal (before ++ a) = true ->
  positive_literal b = true ->
  matches_after before (a ++ String "d" b) = true.
Proof.
  revert before; induction a as [|c a IH]; intros before Ha Hb; simpl.
  - assert (before ++ "" = before) as E
        by (clear; induction before; simpl; congruence).
    rewrite E in Ha. now rewrite Ha, Hb.
  - rewrite IH; [apply orb_true_r| |exact Hb].
    assert ((before ++ String c "") ++ a = before ++ String c a) as ->
        by (clear; induction before; simpl; congruence).
    exact Ha.
Qed.

Lemma matches_after_inv (before rest : string) :
  matches_after before rest = true ->
  exists a b, rest = a ++ String "d" b
              /\ positive_literal (before ++ a) = true
              /\ positive_literal b = true.
Proof.
  revert before; induction rest as [|c r IH]; intros before H; simpl in H;
    [discriminate|].
  apply orb_true_iff in H as [H|H].
  - apply andb_true_iff in H as [H Hb]. apply andb_true_iff in H as [Hc Ha].
    apply Ascii.eqb_eq in Hc; subst c. exists "", r.
    assert (before ++ "" = before) as ->
        by (clear; induction before; simpl; congruence).
    auto.
  - destruct (IH _ H) as [a [b [-> [Ha Hb]]]]. exists (String c a), b.
    assert ((before ++ String c "") ++ a = before ++ String c a) as E
        by (clear; induction before; simpl; congruence).
    rewrite E in Ha. auto.
Qed.

(** The roll accepts every expression that matches the pattern, [int]
    taking no literal with a letter d: the pattern is then exactly what the
    code accepts. *)
Lemma roll_accepts_matching (expr : string) (g : rng) :
  int_literals_have_no_d PY ->
  matches_NdM expr = true ->
  exists rolls g', parse_dice_expression expr g = (Ok rolls, g').
Proof.
  intros Hfree H. apply matches_after_inv in H as [a [b [Hs [Ha Hb]]]].
  simpl in Ha.
  unfold parse_dice_expression, parse_dice_body.
  unfold positive_literal in Ha, Hb. unfold py_int.
  destruct (py_int_of_str a) as [n|] eqn:Ea; [|discriminate].
  destruct (py_int_of_str b) as [m|] eqn:Eb; [|discriminate].
  rewrite Hs, (split_app "d" a b (Hfree _ _ Ea)),
    (split_free "d" b (Hfree _ _ Eb)).
  rewrite Ea, Eb.
  apply Z.ltb_lt in Ha, Hb.
  destruct (Z.leb_spec n 0); [lia|]. destruct (Z.leb_spec m 0); [lia|].
  simpl. destruct (roll_dice (Z.to_nat n) m g) as [rolls g'].
  now exists rolls, g'.
Qed.

(** C3.  For all positive [N] and [M], rolling the expression [NdM] succeeds
    with exactly [N] values, each one between 1 and [M]; and [1d1] always
    gives the single value 1. *)
Theorem roll_NdM_succeeds (N M : Z) (g : rng) :
  0 < N -> 0 < M ->
  exists rolls g',
    parse_dice_expression (dice_expression N M) g = (Ok rolls, g')
    /\ Z.of_nat (List.length rolls) = N
    /\ Forall (fun r => 1 <= r <= M) rolls
    /\ (N = 1 -> M = 1 -> rolls = [1]).
Proof.
  intros HN HM.
  destruct N as [|n|n]; try lia. destruct M as [|m|m]; try lia.
  unfold parse_dice_expression, parse_dice_body.
  rewrite split_dice_expression. unfold py_int.
  rewrite !py_int_ascii by (apply digits_ascii, digits_of_pos).
  rewrite !int_ascii_of_int. cbn [Z.leb Z.compare orb].
  pose proof (roll_dice_length (Z.to_nat (Z.pos n)) (Z.pos m) g) as Hlen.
  pose proof (roll_dice_range (Z.to_nat (Z.pos n)) (Z.pos m) g HM) as Hrange.
  destruct (roll_dice (Z.to_nat (Z.pos n)) (Z.pos m) g) as [rolls g'] eqn:E.
  exists rolls, g'. simpl in Hlen, Hrange.
  repeat split; trivial.
  - rewrite Hlen. lia.
  - intros Hn Hm. injection Hn as ->. injection Hm as ->.
    destruct rolls as [|r [|r' rs]]; try discriminate Hlen.
    inversion Hrange; subst. f_equal. lia.
Qed.

(** An expression outside the pattern makes the roller raise. *)
Lemma unmatched_raises (expr : string) (g : rng) :
  matches_NdM expr = false ->
  exists msg,
    parse_dice_expression expr g = (Raise (ValueError msg), g)
    /\ msg <> "".
Proof.
  intros Hno. unfold parse_dice_expression, parse_dice_body.
  destruct (split "d" (py_lower expr)) as [|p0 [|p1 [|p2 ps]]] eqn:Hs;
    try (exists MSG_FORMAT; split; [reflexivity|discriminate]).
  apply split_two in Hs.
  unfold py_int.
  destruct (py_int_of_str p0) as [n|] eqn:H0;
    [|exists (MSG_LITERAL p0); split; [reflexivity|discriminate]].
  destruct (py_int_of_str p1) as [m|] eqn:H1;
    [|exists (MSG_LITERAL p1); split; [reflexivity|discriminate]].
  destruct ((n <=? 0) || (m <=? 0)) eqn:Hpos;
    [exists MSG_POSITIVE; split; [reflexivity|discriminate]|].
  apply orb_false_iff in Hpos as [Hn Hm].
  apply Z.leb_gt in Hn, Hm.
  exfalso. unfold matches_NdM in Hno. rewrite Hs in Hno.
  rewrite matches_after_cut in Hno; [discriminate| |];
    unfold positive_literal; simpl; [rewrite H0|rewrite H1];
    now apply Z.ltb_lt.
Qed.

Lemma lower_char_ascii (c : ascii) :
  (code c <? 128)%nat = true -> (code (lower_char c) <? 128)%nat = true.
Proof.
  unfold lower_char, code. intros H.
  destruct ((65 <=? nat_of_ascii c) && (nat_of_ascii c <=? 90))%nat eqn:E;
    [|exact H].
  apply andb_true_iff in E as [_ E]. apply Nat.leb_le in E.
  rewrite nat_ascii_embedding by lia. apply Nat.ltb_lt. lia.
Qed.

Lemma ascii_lower_ascii (s : string) :
  is_ascii s = true -> is_ascii (ascii_lower s) = true.
Proof.
  unfold is_ascii. induction s as [|c r IH]; simpl; [reflexivity|].
  intros H. apply andb_true_iff in H as [Hc Hr].
  fold (code (lower_char c)). now rewrite (lower_char_ascii _ Hc), IH.
Qed.

Lemma matches_after_ascii (before rest : string) :
  is_ascii before = true -> is_ascii rest = true ->
  matches_after before rest
  = matches_after (PY := ascii_python) before rest.
Proof.
  revert before; induction rest as [|c r IH]; intros before Hb Hr;
    [reflexivity|].
  assert (is_ascii r = true /\ is_ascii (before ++ String c "") = true)
    as [Hr' Hb'].
  { unfold is_ascii in *. rewrite all_chars_app. simpl in *.
    apply andb_true_iff in Hr as [Hc Hr]. now rewrite Hb, Hc, Hr. }
  cbn [matches_after]. rewrite (IH _ Hb' Hr').
  unfold positive_literal. now rewrite !py_int_ascii by assumption.
Qed.

(** On an ASCII expression the pattern is the one of the interpreter
    without tables. *)
Lemma matches_NdM_ascii (expr : string) :
  is_ascii expr = true ->
  matches_NdM expr = matches_NdM (PY := ascii_python) expr.
Proof.
  intros H. unfold matches_NdM. rewrite py_lower_ascii by exact H.
  apply matches_after_ascii; [reflexivity|now apply ascii_lower_ascii].
Qed.

(** C4.  An expression that does not match [<N>d<M>] (letter case apart,
    both sides literals of positive integers) makes the roll fail with a
    [ValueError] whose message is not empty, and draws nothing; the five
    expressions of the specification are such expressions, on every
    interpreter. *)
Theorem roll_rejects_malformed (expr : string) (g : rng) :
  (matches_NdM expr = false ->
   exists msg,
     parse_dice_expression expr g = (Raise (ValueError msg), g)
     /\ msg <> "")
  /\ Forall (fun e =>
               matches_NdM e = false
               /\ exists msg,
                    parse_dice_expression e g = (Raise (ValueError msg), g)
                    /\ msg <> "")
            ["d20"; "2d"; "2x20"; "-1d6"; "2d0"].
Proof.
  split; [apply unmatched_raises|].
  repeat constructor;
    try (apply unmatched_raises);
    rewrite matches_NdM_ascii by reflexivity; reflexivity.
Qed.

End Roller.

Example roll_2d20 :
  fst (parse_dice_expression (PY := ascii_python) "2D20" count_rng) = Ok [4; 11].
Proof. reflexivity. Qed.

Example roll_spaces :
  fst (parse_dice_expression (PY := ascii_python) " +2 d 1_0 " count_rng) = Ok [4; 1].
Proof. reflexivity. Qed.

Example roll_bad :
  map (fun e => fst (parse_dice_expression (PY := ascii_python) e count_rng))
      ["d20"; "2d"; "2x20"; "-1d6"; "2d0"] =
  [ Raise (ValueError "invalid literal for int() with base 10: ''");
    Raise (ValueError "invalid literal for int() with base 10: ''");
    Raise (ValueError MSG_FORMAT);
    Raise (ValueError MSG_POSITIVE);
    Raise (ValueError MSG_POSITIVE) ].
Proof. reflexivity. Qed.

Lemma roll_NdM_succeeds_witness :
  0 < 3 /\ 0 < 6 /\
  exists rolls g',
    parse_dice_expression (PY := ascii_python) (dice_expression 3 6) count_rng
    = (Ok rolls, g')
    /\ Z.of_nat (List.length rolls) = 3
    /\ Forall (fun r => 1 <= r <= 6) rolls
    /\ (3 = 1 -> 6 = 1 -> rolls = [1]).
Proof.
  split; [reflexivity|]. split; [reflexivity|].
  apply (roll_NdM_succeeds (PY := ascii_python) 3 6 count_rng); reflexivity.
Defined.

Lemma roll_rejects_malformed_witness :
  matches_NdM (PY := ascii_python) "2d3d4" = false
  /\ (exists msg,
        parse_dice_expression (PY := ascii_python) "2d3d4" zero_rng
        = (Raise (ValueError msg), zero_rng) /\ msg <> "")
  /\ Forall (fun e =>
               matches_NdM (PY := ascii_python) e = false
               /\ exists msg,
                    parse_dice_expression (PY := ascii_python) e zero_rng
                    = (Raise (ValueError msg), zero_rng)
                    /\ msg <> "")
            ["d20"; "2d"; "2x20"; "-1d6"; "2d0"].
Proof.
  destruct (roll_rejects_malformed (PY := ascii_python) "2d3d4" zero_rng)
    as [Hgen Hfive].
  split; [reflexivity|]. split; [apply Hgen; reflexivity|exact Hfive].
Defined.

(** *** The interpreter without tables takes no literal with a letter d *)

Lemma int_digits_free (acc : Z) (s : string) (n : Z) :
  int_digits acc s = Some n -> all_chars (differs "d") s = true.
Proof.
  revert acc; induction s as [|c r IH]; intros acc; simpl; [reflexivity|].
  destruct (isdigit c) eqn:Hd.
  - intros H. rewrite (digit_differs_d _ Hd). exact (IH _ H).
  - destruct (Ascii.eqb_spec c "_") as [->|]; [|discriminate].
    destruct r as [|c' r']; [discriminate|].
    destruct (isdigit c'); [|discriminate].
    intros H. exact (IH _ H).
Qed.

Lemma int_unsigned_free (s : string) (n : Z) :
  int_unsigned s = Some n -> all_chars (differs "d") s = true.
Proof.
  destruct s as [|c r]; [reflexivity|]. unfold int_unsigned.
  destruct (isdigit c); [apply int_digits_free|discriminate].
Qed.

Lemma blank_differs_d (c : ascii) : isblank c = true -> differs "d" c = true.
Proof.
  intros H. unfold differs. destruct (Ascii.eqb_spec c "d") as [->|];
    [discriminate H|reflexivity].
Qed.

Lemma trim_left_free (s : string) :
  all_chars (differs "d") (trim_left s) = true ->
  all_chars (differs "d") s = true.
Proof.
  induction s as [|c r IH]; simpl; [reflexivity|].
  destruct (isblank c) eqn:Hc; [|exact (fun H => H)].
  intros H. now rewrite (blank_differs_d _ Hc), IH.
Qed.

Lemma trim_right_free (s : string) :
  all_chars (differs "d") (trim_right s) = true ->
  all_chars (differs "d") s = true.
Proof.
  induction s as [|c r IH]; simpl; [reflexivity|].
  destruct (trim_right r) as [|c' r'] eqn:Hr.
  - destruct (isblank c) eqn:Hc; simpl.
    + intros _. now rewrite (blank_differs_d _ Hc), IH.
    + rewrite andb_true_r. intros ->. now rewrite IH.
  - simpl. intros H. apply andb_true_iff in H as [-> H]. now rewrite IH.
Qed.

Lemma ascii_python_has_no_d : int_literals_have_no_d ascii_python.
Proof.
  intros s n. cbn [py_int_of_str ascii_python]. unfold int_ascii. intros H.
  apply trim_left_free, trim_right_free. fold (trim s).
  destruct (trim s) as [|c r]; [reflexivity|].
  destruct (Ascii.eqb_spec c "+") as [->|];
    [|destruct (Ascii.eqb_spec c "-") as [->|]].
  - simpl. exact (int_unsigned_free _ _ H).
  - destruct (int_unsigned r) eqn:E; [|discriminate].
    simpl. exact (int_unsigned_free _ _ E).
  - exact (int_unsigned_free _ _ H).
Qed.

End Dice.

(** ** Lists and the shuffle *)

Module Shuffle.

Lemma list_set_permutation {A} (l : list A) (i : nat) (a b : A) :
  nth_error l i = Some a -> Permutation (b :: l) (a :: list_set l i b).
Proof.
  revert i; induction l as [|x r IH]; intros [|i] H; simpl in *;
    try discriminate.
  - injection H as ->. apply perm_swap.
  - apply (perm_trans (perm_swap x b r)).
    apply (perm_trans (perm_skip x (IH i H))). apply perm_swap.
Qed.

Lemma nth_error_list_set {A} (l : list A) (i j : nat) (a b : A) :
  nth_error l i = Some a ->
  nth_error (list_set l i b) j = if Nat.eqb i j then Some b else nth_error l j.
Proof.
  revert i j; induction l as [|x r IH]; intros [|i] [|j] H; simpl in *;
    try discriminate; try reflexivity.
  now apply IH.
Qed.

Lemma swap_permutation {A} (x : list A) (i j : nat) :
  Permutation x (swap x i j).
Proof.
  unfold swap.
  destruct (nth_error x i) as [a|] eqn:Hi; [|reflexivity].
  destruct (nth_error x j) as [b|] eqn:Hj; [|reflexivity].
  apply (Permutation_cons_inv (a := b)).
  apply (perm_trans (list_set_permutation x i a b Hi)).
  apply list_set_permutation.
  rewrite (nth_error_list_set x i j a b Hi).
  now destruct (Nat.eqb i j).
Qed.

Lemma shuffle_from_permutation (i : nat) (x : list string) (g : rng) :
  Permutation x (fst (shuffle_from i x g)).
Proof.
  revert x g; induction i as [|i IH]; intros x g; [reflexivity|].
  cbn [shuffle_from]. unfold randbelow.
  eapply perm_trans; [apply swap_permutation|apply IH].
Qed.

(** [random.shuffle] rearranges the list and nothing else. *)
Lemma shuffle_permutation (x : list string) (g : rng) :
  Permutation x (fst (shuffle x g)).
Proof. apply shuffle_from_permutation. Qed.

Lemma py_index_in_range {A} (l : list A) (i : Z) :
  0 <= i < Z.of_nat (List.length l) ->
  exists a, py_index l i = Ok a /\ nth_error l (Z.to_nat i) = Some a.
Proof.
  intros Hi. unfold py_index.
  destruct (Z.ltb_spec i 0); [lia|].
  destruct (Z.ltb_spec i 0); [lia|].
  destruct (Z.leb_spec (Z.of_nat (List.length l)) i); [lia|]. simpl.
  destruct (nth_error l (Z.to_nat i)) as [a|] eqn:E; [now exists a|].
  apply nth_error_None in E. lia.
Qed.

End Shuffle.

(** ** What the handlers leave alone *)

Module Frames.
Import PyStr PyStrFacts.

Section Preserves.
Context {X : Type} (f : world -> X).

Lemma preserves_ret {A} (a : A) : preserves f (ret a).
Proof. intros w; reflexivity. Qed.

Lemma preserves_raise {A} (e : exn) : preserves f (@raise A e).
Proof. intros w; reflexivity. Qed.

Lemma preserves_lift {A} (r : result A) : preserves f (lift r).
Proof. intros w; reflexivity. Qed.

Lemma preserves_get_world : preserves f get_world.
Proof. intros w; reflexivity. Qed.

Lemma preserves_bind {A B} (m : M A) (k : A -> M B) :
  preserves f m -> (forall a, preserves f (k a)) -> preserves f (bind m k).
Proof.
  intros Hm Hk w. unfold bind. specialize (Hm w).
  destruct (m w) as [[a|e] w']; simpl in *; [|exact Hm].
  now rewrite Hk.
Qed.
End Preserves.

Create HintDb frame.

#[local] Hint Resolve preserves_ret preserves_raise preserves_lift
  preserves_get_world : frame.

(** Closes [preserves f m] by walking through [m]; the primitive that
    writes the component [f] reads is what stops it. *)
Ltac frame :=
  repeat first
    [ progress intros
    | apply preserves_bind
    | solve [auto with frame]
    | solve [intros ?; reflexivity]
    | solve [intros ?; unfold save_characters, save_combat;
             match goal with
             | |- context [io_faults ?w (io_clock ?w)] =>
                 destruct (io_faults w (io_clock w)); reflexivity
             end]
    | match goal with
      | |- preserves _ (match ?x with _ => _ end) => destruct x
      | |- preserves _ (if ?x then _ else _) => destruct x
      | |- preserves _ (let (_, _) := ?x in _) => destruct x
      end ].

Lemma combat_save_characters : preserves combat_state save_characters.
Proof. frame. Qed.

Lemma combat_cmd_dnd c : preserves combat_state (cmd_dnd c).
Proof. unfold cmd_dnd. frame. Qed.

Lemma combat_cmd_roll c : preserves combat_state (cmd_roll c).
Proof. unfold cmd_roll. frame. Qed.

Lemma combat_cmd_createchar m c : preserves combat_state (cmd_createchar m c).
Proof. unfold cmd_createchar. frame. Qed.

Lemma combat_cmd_sheet m : preserves combat_state (cmd_sheet m).
Proof. unfold cmd_sheet. frame. Qed.

Lemma combat_cmd_setclass m c : preserves combat_state (cmd_setclass m c).
Proof. unfold cmd_setclass, char_name. frame. Qed.

Lemma combat_cmd_additem m c : preserves combat_state (cmd_additem m c).
Proof. unfold cmd_additem, char_name. frame. Qed.

Lemma client_user_on_message m : preserves client_user (on_message m).
Proof.
  unfold on_message, cmd_dnd, cmd_roll, cmd_createchar, cmd_sheet,
    cmd_setclass, cmd_additem, cmd_startcombat, cmd_endturn, cmd_endcombat,
    char_name.
  frame.
Qed.

Lemma characters_cmd_startcombat : preserves characters cmd_startcombat.
Proof. unfold cmd_startcombat. frame. Qed.

Lemma characters_cmd_endturn : preserves characters cmd_endturn.
Proof. unfold cmd_endturn. frame. Qed.

Lemma characters_cmd_endcombat : preserves characters cmd_endcombat.
Proof. unfold cmd_endcombat. frame. Qed.

End Frames.

(** ** Which command a message is *)

Module Dispatch.
Import PyStr PyStrFacts.

(** Resolves the chain of prefix tests of [on_message] for a message that
    is not the bot's own and starts with a given command. *)
Ltac dispatch Hau Hp :=
  unfold on_message, bind, get_world;
  apply Z.eqb_neq in Hau; rewrite Hau;
  let r := fresh "r" in let Hr := fresh "Hr" in
  destruct (startswith_inv _ _ Hp) as [r Hr]; rewrite Hr;
  cbn [startswith String.append Ascii.eqb Bool.eqb andb]; reflexivity.

Lemma dispatch_startcombat (m : message) (w : world) :
  author m <> client_user w ->
  startswith "!startcombat" (strip (content m)) = true ->
  on_message m w = cmd_startcombat w.
Proof. intros Hau Hp. dispatch Hau Hp. Qed.

Lemma dispatch_endturn (m : message) (w : world) :
  author m <> client_user w ->
  startswith "!endturn" (strip (content m)) = true ->
  on_message m w = cmd_endturn w.
Proof. intros Hau Hp. dispatch Hau Hp. Qed.

Lemma dispatch_endcombat (m : message) (w : world) :
  author m <> client_user w ->
  startswith "!endcombat" (strip (content m)) = true ->
  on_message m w = cmd_endcombat w.
Proof. intros Hau Hp. dispatch Hau Hp. Qed.

Lemma dispatch_createchar (m : message) (w : world) :
  author m <> client_user w ->
  startswith "!createchar" (strip (content m)) = true ->
  on_message m w = cmd_createchar m (strip (content m)) w.
Proof. intros Hau Hp. dispatch Hau Hp. Qed.

Lemma dispatch_setclass (m : message) (w : world) :
  author m <> client_user w ->
  startswith "!setclass" (strip (content m)) = true ->
  on_message m w = cmd_setclass m (strip (content m)) w.
Proof. intros Hau Hp. dispatch Hau Hp. Qed.

Lemma dispatch_additem (m : message) (w : world) :
  author m <> client_user w ->
  startswith "!additem" (strip (content m)) = true ->
  on_message m w = cmd_additem m (strip (content m)) w.
Proof. intros Hau Hp. dispatch Hau Hp. Qed.

Lemma dispatch_roll (m : message) (w : world) :
  author m <> client_user w ->
  startswith "!roll" (strip (content m)) = true ->
  on_message m w = cmd_roll (strip (content m)) w.
Proof. intros Hau Hp. dispatch Hau Hp. Qed.

(** [replies] of a handler that sends one text, or none. *)
Lemma skipn_sent {A} (l r : list A) : skipn (List.length l) (l ++ r) = r.
Proof. induction l as [|a l IH]; simpl; auto. Qed.

Lemma skipn_whole {A} (l : list A) : skipn (List.length l) l = [].
Proof. induction l; simpl; auto. Qed.

End Dispatch.

(** ** The combat coordinator *)

Module Combat.
Import PyStr PyStrFacts Shuffle Frames Dispatch.

#[local] Arguments append : simpl never.
#[local] Arguments reply_turn : simpl never.
#[local] Arguments reply_combat_begins : simpl never.
#[local] Arguments next_index : simpl never.
#[local] Arguments py_index : simpl never.
#[local] Arguments shuffle : simpl never.

Lemma next_index_nonempty (order : list string) (i : Z) :
  order <> [] ->
  next_index order i = (i + 1) mod Z.of_nat (List.length order)
  /\ 0 <= next_index order i < Z.of_nat (List.length order).
Proof.
  intros Hne. destruct order as [|a r]; [contradiction|].
  unfold next_index. split; [reflexivity|].
  apply Z.mod_pos_bound. simpl List.length. lia.
Qed.

(** A combat that starts. *)
Lemma startcombat_success (w : world) (names : list string) :
  combat_ongoing (combat_state w) = false ->
  names_of (dict_values (characters w)) = Ok names ->
  names <> [] ->
  exists first rest,
    fst (shuffle names (random w)) = first :: rest
    /\ outcome cmd_startcombat w = Ok tt
    /\ combat_state (exec cmd_startcombat w)
       = mkCombat (Some true) (Some (first :: rest)) (Some 0)
    /\ sent (exec cmd_startcombat w)
       = (sent w ++ [reply_combat_begins (first :: rest) first])%list
    /\ client_user (exec cmd_startcombat w) = client_user w.
Proof.
  intros Hidle Hnames Hne.
  pose proof (shuffle_permutation names (random w)) as Hperm.
  destruct (shuffle names (random w)) as [order g] eqn:Hsh.
  cbn [fst] in *.
  destruct order as [|first rest].
  { apply Permutation_sym, Permutation_nil in Hperm. contradiction. }
  exists first, rest.
  unfold outcome, exec, cmd_startcombat, bind, get_world, lift, set_random,
    set_combat_state, save_combat, send.
  rewrite Hidle, Hnames. destruct names as [|n ns]; [contradiction|].
  rewrite Hsh. cbn.
  change (py_index (first :: rest) 0) with (Ok (A:=string) first).
  destruct (io_faults w (io_clock w)); cbn; auto.
Qed.

(** A turn that ends while the record is sound. *)
Lemma endturn_step (w : world) (order : list string) (i : Z) :
  combat_state w = mkCombat (Some true) (Some order) (Some i) ->
  order <> [] ->
  exists name,
    py_index order (next_index order i) = Ok name
    /\ outcome cmd_endturn w = Ok tt
    /\ combat_state (exec cmd_endturn w)
       = mkCombat (Some true) (Some order) (Some (next_index order i))
    /\ sent (exec cmd_endturn w) = (sent w ++ [reply_turn name])%list
    /\ client_user (exec cmd_endturn w) = client_user w.
Proof.
  intros Hcs Hne.
  destruct (next_index_nonempty order i Hne) as [_ Hrange].
  destruct (py_index_in_range order _ Hrange) as [name [Hidx _]].
  exists name. split; [exact Hidx|].
  unfold outcome, exec, cmd_endturn, bind, get_world, lift,
    set_combat_state, save_combat, send.
  rewrite Hcs. cbn. rewrite Hidx.
  destruct (io_faults w (io_clock w)); cbn; auto.
Qed.

(** [k] turns that end, one after the other. *)
Lemma endturn_rounds (e : message) (order : list string) :
  order <> [] ->
  startswith "!endturn" (strip (content e)) = true ->
  forall (k : nat) (w : world) (i : Z),
    author e <> client_user w ->
    combat_state w = mkCombat (Some true) (Some order) (Some i) ->
    0 <= i < Z.of_nat (List.length order) ->
    let j := (i + Z.of_nat k) mod Z.of_nat (List.length order) in
    combat_state (run (repeat e k) w)
    = mkCombat (Some true) (Some order) (Some j)
    /\ (k <> O ->
        exists name, py_index order j = Ok name
                     /\ last (sent (run (repeat e k) w)) "" = reply_turn name).
Proof.
  intros Hne He. induction k as [|k IH]; intros w i Hau Hcs Hi j; subst j.
  - rewrite Z.add_0_r, Z.mod_small by exact Hi.
    split; [exact Hcs|]. intros H; now contradiction H.
  - cbn [repeat run].
    assert (exec (on_message e) w = exec cmd_endturn w) as ->
        by (unfold exec; now rewrite (dispatch_endturn e w Hau He)).
    destruct (endturn_step w order i Hcs Hne)
      as [name [Hidx [_ [Hcs1 [Hsent Hcu]]]]].
    destruct (next_index_nonempty order i Hne) as [Hnext Hrange].
    assert (author e <> client_user (exec cmd_endturn w)) as Hau1
        by now rewrite Hcu.
    destruct (IH _ _ Hau1 Hcs1 Hrange) as [Hcsk Hlast].
    assert (((next_index order i) + Z.of_nat k) mod Z.of_nat (List.length order)
            = (i + Z.of_nat (S k)) mod Z.of_nat (List.length order)) as E.
    { rewrite Hnext, Zplus_mod_idemp_l. f_equal. lia. }
    rewrite E in Hcsk, Hlast. split; [exact Hcsk|]. intros _.
    destruct k as [|k]; [|now apply Hlast].
    cbn [repeat run]. rewrite Hsent, last_last.
    exists name. split; [|reflexivity].
    rewrite <- E, Z.add_0_r, Z.mod_small by exact Hrange. exact Hidx.
Qed.

(** C1.  With at least one character name, a combat that starts records a
    permutation of the names as the turn order, index 0 and the flag of a
    running combat, and tells who acts first; ending the turn as many times
    as there are names brings that same name back. *)
Theorem start_then_full_round (m e : message) (w : world)
    (names : list string) :
  author m <> client_user w ->
  author e <> client_user w ->
  startswith "!startcombat" (strip (content m)) = true ->
  startswith "!endturn" (strip (content e)) = true ->
  combat_ongoing (combat_state w) = false ->
  names_of (dict_values (characters w)) = Ok names ->
  names <> [] ->
  exists order first,
    outcome (on_message m) w = Ok tt
    /\ combat_state (exec (on_message m) w)
       = mkCombat (Some true) (Some order) (Some 0)
    /\ Permutation names order
    /\ List.length order = List.length names
    /\ replies (on_message m) w = [reply_combat_begins order first]
    /\ acting (combat_state (exec (on_message m) w)) = Some first
    /\ let w2 := run (repeat e (List.length order)) (exec (on_message m) w) in
       combat_state w2 = mkCombat (Some true) (Some order) (Some 0)
       /\ acting (combat_state w2) = Some first
       /\ last (sent w2) "" = reply_turn first.
Proof.
  intros Hm He Hpm Hpe Hidle Hnames Hne.
  unfold replies, outcome, exec. rewrite (dispatch_startcombat m w Hm Hpm).
  fold (exec cmd_startcombat w). fold (outcome cmd_startcombat w).
  destruct (startcombat_success w names Hidle Hnames Hne)
    as [first [rest [Hsh [Hout [Hcs [Hsent Hcu]]]]]].
  pose proof (shuffle_permutation names (random w)) as Hperm.
  rewrite Hsh in Hperm.
  exists (first :: rest), first.
  assert (acting (mkCombat (Some true) (Some (first :: rest)) (Some 0))
          = Some first) as Hact by reflexivity.
  assert (first :: rest <> []) as Hne' by discriminate.
  assert (author e <> client_user (exec cmd_startcombat w)) as He'
      by now rewrite Hcu.
  assert (0 <= 0 < Z.of_nat (List.length (first :: rest))) as H0
      by (simpl List.length; lia).
  destruct (endturn_rounds e (first :: rest) Hne' Hpe
              (List.length (first :: rest)) _ 0 He' Hcs H0) as [Hk Hlast].
  rewrite Z.add_0_l, Z_mod_same_full in Hk, Hlast.
  destruct Hlast as [name [Hidx Hl]]; [discriminate|].
  change (py_index (first :: rest) 0) with (Ok (A:=string) first) in Hidx.
  injection Hidx as <-.
  split; [exact Hout|]. split; [exact Hcs|]. split; [exact Hperm|].
  split; [symmetry; now apply Permutation_length|].
  split; [rewrite Hsent; apply skipn_sent|].
  split; [now rewrite Hcs|].
  cbv zeta. rewrite Hk. auto.
Qed.

Lemma start_then_full_round_witness :
  exists order first,
    outcome (on_message (msg 11 "!startcombat")) party_world = Ok tt
    /\ combat_state (exec (on_message (msg 11 "!startcombat")) party_world)
       = mkCombat (Some true) (Some order) (Some 0)
    /\ Permutation ["A"; "B"; "C"] order
    /\ List.length order = 3%nat
    /\ replies (on_message (msg 11 "!startcombat")) party_world
       = [reply_combat_begins order first]
    /\ acting (combat_state
                 (exec (on_message (msg 11 "!startcombat")) party_world))
       = Some first
    /\ let w2 := run (repeat (msg 12 " !endturn") (List.length order))
                     (exec (on_message (msg 11 "!startcombat")) party_world) in
       combat_state w2 = mkCombat (Some true) (Some order) (Some 0)
       /\ acting (combat_state w2) = Some first
       /\ last (sent w2) "" = reply_turn first.
Proof.
  apply (start_then_full_round (msg 11 "!startcombat") (msg 12 " !endturn")
           party_world ["A"; "B"; "C"]);
    try reflexivity; discriminate.
Defined.

(** *** The invariant of the combat record *)

Lemma wf_idle (cs : combat) : combat_ongoing cs = false -> combat_wf cs.
Proof. intros H Hon. congruence. Qed.

Lemma wf_startcombat (w : world) :
  combat_wf (combat_state w) ->
  combat_wf (combat_state (exec cmd_startcombat w)).
Proof.
  intros Hwf.
  destruct (combat_ongoing (combat_state w)) eqn:Hon.
  - unfold exec, cmd_startcombat, bind, get_world. rewrite Hon. exact Hwf.
  - destruct (names_of (dict_values (characters w))) as [names|err] eqn:Hn.
    + destruct names as [|n ns].
      * unfold exec, cmd_startcombat, bind, get_world, lift.
        rewrite Hon, Hn. exact Hwf.
      * destruct (startcombat_success w (n :: ns) Hon Hn)
          as [first [rest [_ [_ [Hcs _]]]]]; [discriminate|].
        rewrite Hcs. intros _. exists (first :: rest), 0.
        repeat split; try discriminate; simpl List.length; lia.
    + unfold exec, cmd_startcombat, bind, get_world, lift.
      rewrite Hon, Hn. exact Hwf.
Qed.

Lemma wf_endturn (w : world) :
  combat_wf (combat_state w) ->
  combat_wf (combat_state (exec cmd_endturn w)).
Proof.
  intros Hwf.
  destruct (combat_ongoing (combat_state w)) eqn:Hon.
  - destruct (Hwf Hon) as [order [i [Hto [Hne [Hci Hi]]]]].
    assert (combat_state w = mkCombat (Some true) (Some order) (Some i)) as Hcs.
    { destruct (combat_state w) as [o t c]. unfold combat_ongoing in Hon.
      simpl in *. subst. destruct o as [[|]|]; congruence. }
    destruct (endturn_step w order i Hcs Hne) as [name [_ [_ [Hcs' _]]]].
    rewrite Hcs'. intros _. exists order, (next_index order i).
    repeat split; trivial; apply (next_index_nonempty order i Hne).
  - unfold exec, cmd_endturn, bind, get_world. rewrite Hon. exact Hwf.
Qed.

Lemma wf_endcombat (w : world) :
  combat_wf (combat_state w) ->
  combat_wf (combat_state (exec cmd_endcombat w)).
Proof.
  intros Hwf.
  destruct (combat_ongoing (combat_state w)) eqn:Hon.
  - apply wf_idle.
    unfold exec, cmd_endcombat, bind, get_world, set_combat_state,
      save_combat, send.
    rewrite Hon. cbn. destruct (io_faults w (io_clock w)); reflexivity.
  - unfold exec, cmd_endcombat, bind, get_world. rewrite Hon. exact Hwf.
Qed.

(** No message breaks the invariant. *)
Lemma wf_on_message (m : message) (w : world) :
  combat_wf (combat_state w) ->
  combat_wf (combat_state (exec (on_message m) w)).
Proof.
  intros Hwf. unfold exec, on_message, bind, get_world. cbv beta iota.
  destruct (author m =? client_user w); [exact Hwf|].
  destruct (startswith "!dnd" _); [now rewrite combat_cmd_dnd|].
  destruct (startswith "!roll" _); [now rewrite combat_cmd_roll|].
  destruct (startswith "!createchar" _); [now rewrite combat_cmd_createchar|].
  destruct (startswith "!sheet" _); [now rewrite combat_cmd_sheet|].
  destruct (startswith "!setclass" _); [now rewrite combat_cmd_setclass|].
  destruct (startswith "!additem" _); [now rewrite combat_cmd_additem|].
  destruct (startswith "!startcombat" _); [now apply wf_startcombat|].
  destruct (startswith "!endturn" _); [now apply wf_endturn|].
  destruct (startswith "!endcombat" _); [now apply wf_endcombat|].
  exact Hwf.
Qed.

(** C2.  In every world the bot reaches from an idle start, whatever the
    messages, a combat that goes on has a turn order that is not empty and
    an index that points into it. *)
Theorem reachable_combat_wf (w : world) :
  reachable w -> combat_wf (combat_state w).
Proof.
  induction 1 as [w Hidle|w m _ IH].
  - now apply wf_idle.
  - now apply wf_on_message.
Qed.

Lemma reachable_run (ms : list message) (w : world) :
  reachable w -> reachable (run ms w).
Proof.
  revert w; induction ms as [|m ms IH]; intros w H; simpl; [exact H|].
  apply IH. now constructor.
Qed.

Lemma reachable_combat_wf_witness :
  combat_wf
    (combat_state
       (run [msg 11 "!startcombat"; msg 12 "!endturn"; msg 13 "!endturn"]
            party_world)).
Proof.
  apply (reachable_combat_wf
           (run [msg 11 "!startcombat"; msg 12 "!endturn"; msg 13 "!endturn"]
                party_world)).
  apply reachable_run. apply reach_idle. reflexivity.
Defined.

(** *** Commands that the coordinator turns down *)

(** C7.  A start while a combat goes on, an end of turn or of combat while
    none does, and a start without any character do nothing but send the
    reply that says so: the combat record, its file and everything else
    stay as they were. *)
Theorem combat_rejections (m : message) (w : world) :
  author m <> client_user w ->
  (startswith "!startcombat" (strip (content m)) = true ->
   combat_ongoing (combat_state w) = true ->
   on_message m w = send REPLY_ALREADY_ACTIVE w
   /\ combat_state (exec (on_message m) w) = combat_state w)
  /\ (startswith "!endturn" (strip (content m)) = true ->
      combat_ongoing (combat_state w) = false ->
      on_message m w = send REPLY_NOT_ACTIVE w
      /\ combat_state (exec (on_message m) w) = combat_state w)
  /\ (startswith "!endcombat" (strip (content m)) = true ->
      combat_ongoing (combat_state w) = false ->
      on_message m w = send REPLY_NOT_ACTIVE w
      /\ combat_state (exec (on_message m) w) = combat_state w)
  /\ (startswith "!startcombat" (strip (content m)) = true ->
      combat_ongoing (combat_state w) = false ->
      characters w = [] ->
      on_message m w = send REPLY_NO_CHARACTERS w
      /\ combat_state (exec (on_message m) w) = combat_state w).
Proof.
  intros Hau. repeat split; intros.
  all: unfold exec;
    first [ rewrite (dispatch_startcombat m w Hau) by assumption
          | rewrite (dispatch_endturn m w Hau) by assumption
          | rewrite (dispatch_endcombat m w Hau) by assumption ].
  all: unfold cmd_startcombat, cmd_endturn, cmd_endcombat, bind, get_world,
         lift;
    repeat match goal with
           | H : combat_ongoing _ = _ |- _ => rewrite H
           | H : characters _ = [] |- _ => rewrite H
           end;
    reflexivity.
Qed.

Lemma combat_rejections_witness :
  (on_message (msg 11 "!endturn") party_world
   = send REPLY_NOT_ACTIVE party_world
   /\ on_message (msg 11 "!endcombat") party_world
      = send REPLY_NOT_ACTIVE party_world
   /\ on_message (msg 11 "!startcombat") fresh_world
      = send REPLY_NO_CHARACTERS fresh_world)
  /\ on_message (msg 12 "!startcombat")
                (exec (on_message (msg 11 "!startcombat")) party_world)
     = send REPLY_ALREADY_ACTIVE
            (exec (on_message (msg 11 "!startcombat")) party_world).
Proof.
  assert (11 <> 0) as H11 by lia. assert (12 <> 0) as H12 by lia.
  destruct (combat_rejections (msg 11 "!endturn") party_world H11)
    as [_ [Hturn _]].
  destruct (combat_rejections (msg 11 "!endcombat") party_world H11)
    as [_ [_ [Hend _]]].
  destruct (combat_rejections (msg 11 "!startcombat") fresh_world H11)
    as [_ [_ [_ Hnone]]].
  destruct (combat_rejections (msg 12 "!startcombat")
              (exec (on_message (msg 11 "!startcombat")) party_world) H12)
    as [Hagain _].
  split; [split; [|split]|].
  - apply Hturn; reflexivity.
  - apply Hend; reflexivity.
  - apply Hnone; reflexivity.
  - apply Hagain; reflexivity.
Defined.

(** *** A turn that ends with nobody in the order *)

(** With a combat going on and a turn order that is empty or missing, the
    end of a turn stores index 0, saves, and then raises on
    [turn_order[idx]]: nothing is sent. *)
Lemma endturn_empty_order (e : message) (w : world) :
  author e <> client_user w ->
  startswith "!endturn" (strip (content e)) = true ->
  combat_ongoing (combat_state w) = true ->
  turn_order (combat_state w) = Some [] \/ turn_order (combat_state w) = None ->
  outcome (on_message e) w = Raise (IndexError "list index out of range")
  /\ replies (on_message e) w = []
  /\ current_index (combat_state (exec (on_message e) w)) = Some 0.
Proof.
  intros Hau Hp Hon Hto.
  unfold replies, outcome, exec. rewrite (dispatch_endturn e w Hau Hp).
  unfold cmd_endturn, bind, get_world, lift, set_combat_state, save_combat.
  rewrite Hon.
  assert (match turn_order (combat_state w) with Some l => l | None => [] end
          = []) as -> by (destruct Hto as [-> | ->]; reflexivity).
  cbn. destruct (io_faults w (io_clock w)); cbn;
    repeat split; apply skipn_whole.
Qed.

(** C8 on the code.  After a start from a combat file that says a combat
    goes on with an empty turn order, [!endturn] stores index 0 and writes the
    file, then raises [IndexError]; no reply names who acts. *)
Theorem endturn_tampered_raises :
  combat_state tampered_ready = mkCombat (Some true) (Some []) (Some 0)
  /\ outcome (on_message (msg 11 "!endturn")) tampered_ready
     = Raise (IndexError "list index out of range")
  /\ replies (on_message (msg 11 "!endturn")) tampered_ready = []
  /\ combat_state (exec (on_message (msg 11 "!endturn")) tampered_ready)
     = mkCombat (Some true) (Some []) (Some 0)
  /\ combat_file (exec (on_message (msg 11 "!endturn")) tampered_ready)
     = Holds (mkCombat (Some true) (Some []) (Some 0)).
Proof. repeat split. Qed.

End Combat.

(** ** The character registry *)

Module Registry.
Import PyStr PyStrFacts Numerals Frames Dispatch.

#[local] Arguments append : simpl never.
#[local] Arguments strip : simpl never.
#[local] Arguments slice_from : simpl never.
#[local] Arguments String.length : simpl never.

Section DictFacts.
Context {V : Type}.
Implicit Types (d : dict V) (k : string) (v : V).

Lemma dict_get_set_same k v d : dict_get k (dict_set k v d) = Some v.
Proof.
  induction d as [|[k' v'] d IH]; simpl.
  - now rewrite String.eqb_refl.
  - destruct (String.eqb k k') eqn:E; simpl; rewrite ?String.eqb_refl, ?E;
      auto.
Qed.

Lemma dict_get_set_other k k' v d :
  k' <> k -> dict_get k' (dict_set k v d) = dict_get k' d.
Proof.
  intros Hne. apply String.eqb_neq in Hne.
  induction d as [|[k0 v0] d IH]; simpl.
  - now rewrite Hne.
  - destruct (String.eqb_spec k k0) as [->|Hk]; simpl.
    + now rewrite Hne.
    + now rewrite IH.
Qed.

Lemma dict_keys_set_present k v v0 d :
  dict_get k d = Some v0 -> dict_keys (dict_set k v d) = dict_keys d.
Proof.
  induction d as [|[k' v'] d IH]; simpl; [discriminate|].
  destruct (String.eqb_spec k k') as [->|Hk]; simpl; [reflexivity|].
  intros H. now rewrite (IH H).
Qed.

Lemma dict_records_absent k d :
  ~ In k (dict_keys d) -> dict_records k d = [].
Proof.
  unfold dict_records. induction d as [|[k' v'] d IH]; simpl; [reflexivity|].
  intros Hn. destruct (String.eqb_spec k' k) as [->|Hk].
  - exfalso. apply Hn. now left.
  - apply IH. intros Hin. apply Hn. now right.
Qed.

Lemma dict_keys_set_in k k' v d :
  In k' (dict_keys (dict_set k v d)) -> k' = k \/ In k' (dict_keys d).
Proof.
  induction d as [|[k0 v0] d IH]; simpl.
  - intros [<-|[]]. now left.
  - destruct (String.eqb_spec k k0) as [->|Hk]; simpl.
    + intros [<-|H]; auto.
    + intros [<-|H]; auto. destruct (IH H); auto.
Qed.

(** A dictionary stays one under [d[k] = v], and holds one value for [k]. *)
Lemma dict_set_nodup k v d :
  NoDup (dict_keys d) ->
  NoDup (dict_keys (dict_set k v d)) /\ dict_records k (dict_set k v d) = [v].
Proof.
  induction d as [|[k' v'] d IH]; simpl; intros Hnd.
  - split; [repeat constructor; intros []|].
    unfold dict_records; simpl. now rewrite String.eqb_refl.
  - inversion Hnd as [|? ? Hnin Hnd']; subst.
    destruct (String.eqb_spec k k') as [->|Hk]; simpl.
    + split; [now constructor|].
      unfold dict_records; simpl. rewrite String.eqb_refl. simpl.
      f_equal. now apply dict_records_absent.
    + destruct (IH Hnd') as [IH1 IH2]. split.
      * constructor; [|exact IH1]. intros Hin.
        destruct (dict_keys_set_in _ _ _ _ Hin); [congruence|contradiction].
      * unfold dict_records in *; simpl.
        destruct (String.eqb_spec k' k) as [->|_]; [contradiction|].
        exact IH2.
Qed.
End DictFacts.

(** Two users never share a key of the registry. *)
Lemma user_id_injective (m1 m2 : message) :
  author m1 <> author m2 -> user_id_of m1 <> user_id_of m2.
Proof.
  unfold user_id_of. intros Hne Heq. apply Hne.
  pose proof (int_ascii_of_int (author m1)) as H1.
  rewrite Heq, int_ascii_of_int in H1. congruence.
Qed.

Lemma is_empty_false (s : string) : s <> "" -> is_empty s = false.
Proof. destruct s; [contradiction|reflexivity]. Qed.

(** [!createchar] with a name. *)
Lemma createchar_step (m : message) (w : world) (name : string) :
  author m <> client_user w ->
  startswith "!createchar" (strip (content m)) = true ->
  strip (slice_from (String.length "!createchar") (strip (content m))) = name ->
  name <> "" ->
  outcome (on_message m) w = Ok tt
  /\ characters (exec (on_message m) w)
     = dict_set (user_id_of m) (mkCharacter (Some name) (Some "") (Some []))
                (characters w)
  /\ sent (exec (on_message m) w) = (sent w ++ [reply_created name])%list
  /\ client_user (exec (on_message m) w) = client_user w.
Proof.
  intros Hau Hp Hname Hne.
  unfold outcome, exec. rewrite (dispatch_createchar m w Hau Hp).
  unfold cmd_createchar, bind, get_world, set_characters, save_characters, send.
  rewrite Hname, (is_empty_false _ Hne). cbn.
  destruct (io_faults w (io_clock w)); cbn; auto.
Qed.

(** C5.  Creating a character with a name that is not empty always
    succeeds and puts [{name, class: "", items: []}] under the user's key,
    whatever was there, leaving the other keys alone; the registry keeps one
    record for the user, and a second creation by the same user again leaves
    exactly one, with the class and the items reset. *)
Theorem create_replaces (m : message) (w : world) (name : string) :
  author m <> client_user w ->
  startswith "!createchar" (strip (content m)) = true ->
  strip (slice_from (String.length "!createchar") (strip (content m))) = name ->
  name <> "" ->
  let fresh := mkCharacter (Some name) (Some "") (Some []) in
  let w1 := exec (on_message m) w in
  outcome (on_message m) w = Ok tt
  /\ replies (on_message m) w = [reply_created name]
  /\ dict_get (user_id_of m) (characters w1) = Some fresh
  /\ (forall k, k <> user_id_of m ->
                dict_get k (characters w1) = dict_get k (characters w))
  /\ (NoDup (dict_keys (characters w)) ->
      NoDup (dict_keys (characters w1))
      /\ dict_records (user_id_of m) (characters w1) = [fresh])
  /\ (forall (m2 : message) (name2 : string),
        author m2 = author m ->
        startswith "!createchar" (strip (content m2)) = true ->
        strip (slice_from (String.length "!createchar") (strip (content m2)))
        = name2 ->
        name2 <> "" ->
        let fresh2 := mkCharacter (Some name2) (Some "") (Some []) in
        let w2 := exec (on_message m2) w1 in
        outcome (on_message m2) w1 = Ok tt
        /\ dict_get (user_id_of m) (characters w2) = Some fresh2
        /\ (NoDup (dict_keys (characters w)) ->
            dict_records (user_id_of m) (characters w2) = [fresh2])).
Proof.
  intros Hau Hp Hname Hne fresh w1.
  destruct (createchar_step m w name Hau Hp Hname Hne)
    as [Hout [Hchars [Hsent Hcu]]].
  fold w1 in Hchars, Hsent, Hcu.
  split; [exact Hout|].
  split; [unfold replies; fold w1; rewrite Hsent; apply skipn_sent|].
  split; [rewrite Hchars; apply dict_get_set_same|].
  split; [intros k Hk; rewrite Hchars; now apply dict_get_set_other|].
  split; [intros Hnd; rewrite Hchars; now apply dict_set_nodup|].
  intros m2 name2 Hsame Hp2 Hname2 Hne2 fresh2 w2.
  assert (author m2 <> client_user w1) as Hau2 by (rewrite Hcu; congruence).
  destruct (createchar_step m2 w1 name2 Hau2 Hp2 Hname2 Hne2)
    as [Hout2 [Hchars2 _]].
  fold w2 in Hchars2.
  assert (user_id_of m2 = user_id_of m) as Huid
      by (unfold user_id_of; now rewrite Hsame).
  rewrite Huid in Hchars2.
  split; [exact Hout2|].
  split; [rewrite Hchars2; apply dict_get_set_same|].
  intros Hnd. rewrite Hchars2. apply dict_set_nodup.
  rewrite Hchars. now apply dict_set_nodup.
Qed.

Lemma create_replaces_witness :
  dict_get "12" (characters party_world)
  = Some (mkCharacter (Some "B") (Some "Wizard") (Some ["Staff"]))
  /\ dict_get "12"
       (characters (exec (on_message (msg 12 "!createchar Bram")) party_world))
     = Some (mkCharacter (Some "Bram") (Some "") (Some []))
  /\ dict_records "12"
       (characters (exec (on_message (msg 12 "!createchar Bram")) party_world))
     = [mkCharacter (Some "Bram") (Some "") (Some [])]
  /\ dict_records "12"
       (characters
          (exec (on_message (msg 12 " !createchar  Zel "))
                (exec (on_message (msg 12 "!createchar Bram")) party_world)))
     = [mkCharacter (Some "Zel") (Some "") (Some [])].
Proof.
  assert (author (msg 12 "!createchar Bram") <> client_user party_world)
    as Hau by (simpl; lia).
  assert (NoDup (dict_keys (characters party_world))) as Hnd.
  { repeat constructor; simpl; intuition discriminate. }
  destruct (create_replaces (msg 12 "!createchar Bram") party_world "Bram"
              Hau eq_refl eq_refl ltac:(discriminate))
    as [_ [_ [Hget [_ [Hone Htwice]]]]].
  split; [reflexivity|]. split; [exact Hget|].
  split; [now apply Hone|].
  destruct (Htwice (msg 12 " !createchar  Zel ") "Zel" eq_refl eq_refl eq_refl
              ltac:(discriminate)) as [_ [_ Hrec]].
  now apply Hrec.
Defined.

(** [!additem] and [!setclass] that go through. *)
Lemma additem_step (m : message) (w : world) (char : character)
    (item_name : string) :
  author m <> client_user w ->
  startswith "!additem" (strip (content m)) = true ->
  strip (slice_from (String.length "!additem") (strip (content m))) = item_name ->
  item_name <> "" ->
  dict_get (user_id_of m) (characters w) = Some char ->
  char_is_empty char = false ->
  characters (exec (on_message m) w)
  = dict_set (user_id_of m)
      (mkCharacter (c_name char) (c_class char)
                   (Some (items_of char ++ [item_name])%list))
      (characters w)
  /\ combat_state (exec (on_message m) w) = combat_state w.
Proof.
  intros Hau Hp Hitem Hne Hget Hfull.
  unfold exec. rewrite (dispatch_additem m w Hau Hp).
  split; [|apply combat_cmd_additem].
  unfold cmd_additem, get_char, char_name, bind, get_world, set_characters,
    save_characters, send, ret, raise.
  rewrite Hitem, Hget, Hfull, (is_empty_false _ Hne). cbn.
  destruct (io_faults w (io_clock w)), (c_name char); reflexivity.
Qed.

Lemma setclass_step (m : message) (w : world) (char : character)
    (class_name : string) :
  author m <> client_user w ->
  startswith "!setclass" (strip (content m)) = true ->
  strip (slice_from (String.length "!setclass") (strip (content m)))
  = class_name ->
  class_name <> "" ->
  dict_get (user_id_of m) (characters w) = Some char ->
  char_is_empty char = false ->
  characters (exec (on_message m) w)
  = dict_set (user_id_of m)
      (mkCharacter (c_name char) (Some class_name) (c_items char))
      (characters w)
  /\ combat_state (exec (on_message m) w) = combat_state w.
Proof.
  intros Hau Hp Hclass Hne Hget Hfull.
  unfold exec. rewrite (dispatch_setclass m w Hau Hp).
  split; [|apply combat_cmd_setclass].
  unfold cmd_setclass, get_char, char_name, bind, get_world, set_characters,
    save_characters, send, ret, raise.
  rewrite Hclass, Hget, Hfull, (is_empty_false _ Hne). cbn.
  destruct (io_faults w (io_clock w)), (c_name char); reflexivity.
Qed.

(** C6.  Without a record for the user, [!additem] only answers that a
    character must be created first: no record appears and the registry is
    the same.  With a record (a dictionary that has a key, as every record
    the bot writes) and an item name that is not empty, the item goes to the
    end of the items of that record. *)
Theorem additem_needs_character (m : message) (w : world) (item_name : string) :
  author m <> client_user w ->
  startswith "!additem" (strip (content m)) = true ->
  strip (slice_from (String.length "!additem") (strip (content m))) = item_name ->
  (dict_get (user_id_of m) (characters w) = None ->
   on_message m w = send REPLY_NO_CHARACTER w
   /\ characters (exec (on_message m) w) = characters w
   /\ dict_get (user_id_of m) (characters (exec (on_message m) w)) = None)
  /\ (forall char,
        dict_get (user_id_of m) (characters w) = Some char ->
        char_is_empty char = false ->
        item_name <> "" ->
        dict_get (user_id_of m) (characters (exec (on_message m) w))
        = Some (mkCharacter (c_name char) (c_class char)
                            (Some (items_of char ++ [item_name])%list))).
Proof.
  intros Hau Hp Hitem. split.
  - intros Hnone.
    assert (on_message m w = send REPLY_NO_CHARACTER w) as E.
    { rewrite (dispatch_additem m w Hau Hp).
      unfold cmd_additem, get_char, bind, get_world. now rewrite Hnone. }
    unfold exec. rewrite E. auto.
  - intros char Hget Hfull Hne.
    destruct (additem_step m w char item_name Hau Hp Hitem Hne Hget Hfull)
      as [-> _].
    apply dict_get_set_same.
Qed.

Lemma additem_needs_character_witness :
  (on_message (msg 14 "!additem Rope") party_world
   = send REPLY_NO_CHARACTER party_world
   /\ characters (exec (on_message (msg 14 "!additem Rope")) party_world)
      = characters party_world)
  /\ dict_get "12"
       (characters (exec (on_message (msg 12 "!additem Rope")) party_world))
     = Some (mkCharacter (Some "B") (Some "Wizard") (Some ["Staff"; "Rope"])).
Proof.
  assert (14 <> 0) as H14 by lia. assert (12 <> 0) as H12 by lia.
  destruct (additem_needs_character (msg 14 "!additem Rope") party_world
              "Rope" H14 eq_refl eq_refl) as [Hnone _].
  destruct (additem_needs_character (msg 12 "!additem Rope") party_world
              "Rope" H12 eq_refl eq_refl) as [_ Hsome].
  split.
  - destruct (Hnone eq_refl) as [H1 [H2 _]]. now split.
  - apply (Hsome (mkCharacter (Some "B") (Some "Wizard") (Some ["Staff"])));
      [reflexivity|reflexivity|discriminate].
Defined.

(** C10.  For a user who has a record, a class that is set changes the class
    of that record and an item that is added changes its items; the name and
    the other field of the record, the records of all other users, the keys
    of the registry and the combat record are as before. *)
Theorem registry_frame (m : message) (w : world) (char : character)
    (arg : string) :
  author m <> client_user w ->
  dict_get (user_id_of m) (characters w) = Some char ->
  char_is_empty char = false ->
  arg <> "" ->
  let w' := exec (on_message m) w in
  let untouched :=
    (forall k, k <> user_id_of m ->
               dict_get k (characters w') = dict_get k (characters w))
    /\ (forall other, author other <> author m ->
          dict_get (user_id_of other) (characters w')
          = dict_get (user_id_of other) (characters w))
    /\ dict_keys (characters w') = dict_keys (characters w)
    /\ combat_state w' = combat_state w in
  (startswith "!setclass" (strip (content m)) = true ->
   strip (slice_from (String.length "!setclass") (strip (content m))) = arg ->
   dict_get (user_id_of m) (characters w')
   = Some (mkCharacter (c_name char) (Some arg) (c_items char))
   /\ untouched)
  /\ (startswith "!additem" (strip (content m)) = true ->
      strip (slice_from (String.length "!additem") (strip (content m))) = arg ->
      dict_get (user_id_of m) (characters w')
      = Some (mkCharacter (c_name char) (c_class char)
                          (Some (items_of char ++ [arg])%list))
      /\ untouched).
Proof.
  intros Hau Hget Hfull Hne w' untouched. subst untouched w'.
  split; intros Hp Harg;
    [destruct (setclass_step m w char arg Hau Hp Harg Hne Hget Hfull)
       as [Hchars Hcombat]
    |destruct (additem_step m w char arg Hau Hp Harg Hne Hget Hfull)
       as [Hchars Hcombat]];
    rewrite Hchars;
    (split; [apply dict_get_set_same|]);
    (split; [intros k Hk; now apply dict_get_set_other|]);
    (split; [intros other Ho; apply dict_get_set_other;
             now apply user_id_injective|]);
    (split; [now apply (dict_keys_set_present _ _ char)|exact Hcombat]).
Qed.

Lemma registry_frame_witness :
  (dict_get "12"
     (characters (exec (on_message (msg 12 "!setclass Bard")) party_world))
   = Some (mkCharacter (Some "B") (Some "Bard") (Some ["Staff"]))
   /\ dict_get "11"
        (characters (exec (on_message (msg 12 "!setclass Bard")) party_world))
      = dict_get "11" (characters party_world)
   /\ dict_keys
        (characters (exec (on_message (msg 12 "!setclass Bard")) party_world))
      = ["11"; "12"; "13"])
  /\ (dict_get "12"
        (characters (exec (on_message (msg 12 "!additem Lute")) party_world))
      = Some (mkCharacter (Some "B") (Some "Wizard") (Some ["Staff"; "Lute"]))
      /\ dict_get "13"
           (characters (exec (on_message (msg 12 "!additem Lute")) party_world))
         = dict_get "13" (characters party_world)
      /\ combat_state (exec (on_message (msg 12 "!additem Lute")) party_world)
         = combat_state party_world).
Proof.
  assert (12 <> 0) as H12 by lia.
  destruct (registry_frame (msg 12 "!setclass Bard") party_world
              (mkCharacter (Some "B") (Some "Wizard") (Some ["Staff"]))
              "Bard" H12 eq_refl eq_refl ltac:(discriminate)) as [Hclass _].
  destruct (registry_frame (msg 12 "!additem Lute") party_world
              (mkCharacter (Some "B") (Some "Wizard") (Some ["Staff"]))
              "Lute" H12 eq_refl eq_refl ltac:(discriminate)) as [_ Hitem].
  destruct (Hclass eq_refl eq_refl) as [Hc [Hothers [_ [Hkeys _]]]].
  destruct (Hitem eq_refl eq_refl) as [Hi [Hothers' [_ [_ Hcombat]]]].
  split.
  - split; [exact Hc|]. split; [apply Hothers; discriminate|exact Hkeys].
  - split; [exact Hi|]. split; [apply Hothers'; discriminate|exact Hcombat].
Defined.

End Registry.

(** ** Persistence *)

Module Persistence.

#[local] Arguments append : simpl never.

(** C9 as worded fails: with the file absent, [load_data] skips the
    document, so what is in memory stays.  Here a character is created
    while the directory cannot be written, then the bot gets ready again. *)
Lemma load_absent_keeps_memory :
  character_file unsaved_world = Absent
  /\ characters (exec on_ready unsaved_world)
     = [("11", mkCharacter (Some "Bram") (Some "") (Some []))]
  /\ ~ (forall w : world,
          character_file w = Absent -> characters (exec load_data w) = []).
Proof.
  split; [reflexivity|]. split; [reflexivity|].
  intros H. specialize (H unsaved_world eq_refl). discriminate H.
Qed.

(** C9, amended.  [load_data] never raises.  A file that is absent leaves
    the document in memory as it is (empty when the process has just
    started); a file that is there but cannot be read or parsed is logged
    and gives the empty document; a file that parses gives its content.
    A save never raises, and one that fails is logged and changes nothing
    in memory. *)
Theorem load_save_absorb (w : world) :
  outcome load_data w = Ok tt
  /\ (character_file w = Absent ->
      characters (exec load_data w) = characters w
      /\ (characters w = [] -> characters (exec load_data w) = []))
  /\ (combat_file w = Absent ->
      combat_state (exec load_data w) = combat_state w
      /\ (combat_state w = combat_empty ->
          combat_state (exec load_data w) = combat_empty))
  /\ (forall err, character_file w = Unreadable err ->
        characters (exec load_data w) = []
        /\ In ("Error loading " ++ CHARACTER_FILE ++ ": " ++ err)
              (printed (exec load_data w)))
  /\ (forall err, combat_file w = Unreadable err ->
        combat_state (exec load_data w) = combat_empty
        /\ In ("Error loading " ++ COMBAT_FILE ++ ": " ++ err)
              (printed (exec load_data w)))
  /\ (forall doc, character_file w = Holds doc ->
        characters (exec load_data w) = doc)
  /\ (forall doc, combat_file w = Holds doc ->
        combat_state (exec load_data w) = doc)
  /\ outcome save_characters w = Ok tt
  /\ outcome save_combat w = Ok tt
  /\ (forall err damage,
        io_faults w (io_clock w) = WriteFails err damage ->
        printed (exec save_characters w)
        = (printed w ++ [("Error saving characters: " ++ err)%string])%list
        /\ printed (exec save_combat w)
           = (printed w ++ [("Error saving combat state: " ++ err)%string])%list
        /\ characters (exec save_characters w) = characters w
        /\ combat_state (exec save_combat w) = combat_state w).
Proof.
  unfold outcome, exec, load_data, save_characters, save_combat, bind,
    get_world, set_characters, set_combat_state, print, ret.
  repeat match goal with |- _ /\ _ => split end; intros;
    repeat match goal with |- _ /\ _ => split end; intros;
    repeat match goal with
           | H : character_file w = _ |- _ => rewrite H; clear H
           | H : combat_file w = _ |- _ => rewrite H; clear H
           | H : io_faults w _ = _ |- _ => rewrite H; clear H
           end;
    try destruct (character_file w); try destruct (combat_file w);
    try destruct (io_faults w (io_clock w));
    cbn; rewrite ?in_app_iff; cbn; auto.
Qed.

Lemma load_save_absorb_witness :
  (characters (exec load_data fresh_world) = []
   /\ combat_state (exec load_data fresh_world) = combat_empty)
  /\ (characters (exec load_data corrupt_world) = []
      /\ combat_state (exec load_data corrupt_world) = combat_empty
      /\ outcome load_data corrupt_world = Ok tt)
  /\ printed (exec save_characters readonly_world)
     = ["Error saving characters: Read-only file system"].
Proof.
  destruct (load_save_absorb fresh_world)
    as [_ [Hchars [Hcombat _]]].
  destruct (load_save_absorb corrupt_world)
    as [Hok [_ [_ [Hbad [Hbad' _]]]]].
  destruct (load_save_absorb readonly_world)
    as [_ [_ [_ [_ [_ [_ [_ [_ [_ Hsave]]]]]]]]].
  split; [|split].
  - split; [now apply Hchars|now apply Hcombat].
  - split; [eapply Hbad; reflexivity|].
    split; [eapply Hbad'; reflexivity|exact Hok].
  - eapply Hsave. reflexivity.
Defined.

End Persistence.

(** ** More on the dice *)

Module DiceCommand.
Import PyStr PyStrFacts Dice Dispatch.

Lemma roll_dice_draws (n : nat) (m : Z) (g : rng) :
  draws (snd (roll_dice n m g)) = draws g
  /\ cursor (snd (roll_dice n m g)) = (cursor g + n)%nat.
Proof.
  revert g; induction n as [|n IH]; intros g; cbn [roll_dice].
  - simpl. split; [reflexivity|lia].
  - unfold randint, randbelow.
    specialize (IH (mkRng (draws g) (S (cursor g)))).
    destruct (roll_dice n m (mkRng (draws g) (S (cursor g)))) as [rs g2].
    cbn [snd draws cursor] in *. destruct IH as [-> ->]. split; [reflexivity|lia].
Qed.

Lemma total_bounds (m : Z) (rolls : list Z) :
  Forall (fun r => 1 <= r <= m) rolls ->
  Z.of_nat (List.length rolls) <= total rolls
  <= Z.of_nat (List.length rolls) * m.
Proof.
  induction 1 as [|r rs Hr _ IH]; [simpl; lia|].
  cbn [total fold_right List.length] in *. fold (total rs). nia.
Qed.

Section Roller.
Context {PY : Python}.

(** X1.  When the roll succeeds, the lower-cased expression is [N], a
    letter d and [M], with [int(N)] and [int(M)] positive; the result has
    [int(N)] values, each one in [1 .. int(M)], so that their sum lies
    between [int(N)] and [int(N) * int(M)]; and the generator has moved by
    exactly [int(N)] draws. *)
Theorem roll_sound (expr : string) (g g' : rng) (rolls : list Z) :
  parse_dice_expression expr g = (Ok rolls, g') ->
  exists a b n m,
    py_lower expr = a ++ String "d" b
    /\ py_int_of_str a = Some n /\ py_int_of_str b = Some m
    /\ 0 < n /\ 0 < m
    /\ Z.of_nat (List.length rolls) = n
    /\ Forall (fun r => 1 <= r <= m) rolls
    /\ n <= total rolls <= n * m
    /\ draws g' = draws g
    /\ cursor g' = (cursor g + Z.to_nat n)%nat.
Proof.
  unfold parse_dice_expression, parse_dice_body, py_int.
  destruct (split "d" (py_lower expr)) as [|a [|b [|c ps]]] eqn:Hs;
    try discriminate.
  apply split_two in Hs.
  destruct (py_int_of_str a) as [n|] eqn:Ha; [|discriminate].
  destruct (py_int_of_str b) as [m|] eqn:Hb; [|discriminate].
  destruct (Z.leb_spec n 0); [discriminate|].
  destruct (Z.leb_spec m 0); [discriminate|]. cbn [orb].
  pose proof (roll_dice_length (Z.to_nat n) m g) as Hlen.
  pose proof (roll_dice_range (Z.to_nat n) m g ltac:(lia)) as Hrange.
  pose proof (roll_dice_draws (Z.to_nat n) m g) as [Hd Hc].
  destruct (roll_dice (Z.to_nat n) m g) as [rs g2]. cbn [fst snd] in *.
  intros E. injection E as <- <-.
  assert (Z.of_nat (List.length rs) = n) as Hn by (rewrite Hlen; lia).
  exists a, b, n, m. repeat split; trivial; try lia;
    pose proof (total_bounds m rs Hrange); lia.
Qed.

(** The roller raises nothing but [ValueError], and then draws nothing. *)
Lemma roll_raises_value_error (expr : string) (g g' : rng) (e : exn) :
  parse_dice_expression expr g = (Raise e, g') ->
  g' = g /\ e = ValueError (exn_str e).
Proof.
  unfold parse_dice_expression, parse_dice_body, py_int.
  destruct (split "d" (py_lower expr)) as [|a [|b [|c ps]]];
    try (intros E; injection E as <- <-; now split).
  destruct (py_int_of_str a); [|intros E; injection E as <- <-; now split].
  destruct (py_int_of_str b); [|intros E; injection E as <- <-; now split].
  destruct ((z <=? 0) || (z0 <=? 0));
    [intros E; injection E as <- <-; now split|].
  destruct (roll_dice (Z.to_nat z) z0 g). discriminate.
Qed.

End Roller.

Lemma roll_sound_witness :
  exists a b n m,
    py_lower (Python := ascii_python) " 3 D 1_0 " = a ++ String "d" b
    /\ py_int_of_str (Python := ascii_python) a = Some n
    /\ py_int_of_str (Python := ascii_python) b = Some m
    /\ 0 < n /\ 0 < m
    /\ Z.of_nat (List.length [4; 1; 8]) = n
    /\ Forall (fun r => 1 <= r <= m) [4; 1; 8]
    /\ n <= total [4; 1; 8] <= n * m
    /\ draws (mkRng (draws count_rng) 3) = draws count_rng
    /\ cursor (mkRng (draws count_rng) 3)
       = (cursor count_rng + Z.to_nat n)%nat.
Proof.
  apply (roll_sound (PY := ascii_python) " 3 D 1_0 " count_rng (mkRng (draws count_rng) 3)
           [4; 1; 8]).
  reflexivity.
Defined.

(** X2.  A [!roll] message always ends normally with exactly one reply:
    the rolls and their total when the roller succeeds, the warning with
    the roller's message when it fails.  Only the generator changes, by
    what the roller drew; registry, combat record and files do not. *)
Theorem roll_command_answers (m : message) (w : world) :
  author m <> client_user w ->
  startswith "!roll" (strip (content m)) = true ->
  let expr := strip (slice_from 5 (strip (content m))) in
  outcome (on_message m) w = Ok tt
  /\ replies (on_message m) w
     = [ match fst (parse_dice_expression (PY := python w) expr (random w))
         with
         | Ok rolls => reply_rolled rolls
         | Raise e => reply_invalid_expression (exn_str (PY := python w) e)
         end ]
  /\ random (exec (on_message m) w)
     = snd (parse_dice_expression (PY := python w) expr (random w))
  /\ characters (exec (on_message m) w) = characters w
  /\ combat_state (exec (on_message m) w) = combat_state w
  /\ character_file (exec (on_message m) w) = character_file w
  /\ combat_file (exec (on_message m) w) = combat_file w.
Proof.
  intros Hau Hp expr. unfold replies, outcome, exec.
  rewrite (dispatch_roll m w Hau Hp).
  unfold cmd_roll, bind, get_world, set_random, send, raise. fold expr.
  destruct (parse_dice_expression expr (random w)) as [[rolls|e] g] eqn:E;
    cbn [fst snd].
  - cbn. rewrite skipn_sent. repeat split.
  - apply roll_raises_value_error in E as [-> ->].
    cbn. rewrite skipn_sent. repeat split.
Qed.

Lemma roll_command_answers_witness :
  outcome (on_message (msg 11 "!roll 2d")) party_world = Ok tt
  /\ replies (on_message (msg 11 "!roll 2d")) party_world
     = [reply_invalid_expression
          "invalid literal for int() with base 10: ''"]
  /\ replies (on_message (msg 11 " !roll 3D6 ")) party_world
     = [reply_rolled [4; 5; 6]].
Proof.
  assert (11 <> 0) as H11 by lia.
  destruct (roll_command_answers (msg 11 "!roll 2d") party_world H11 eq_refl)
    as [Hok [Hbad _]].
  destruct (roll_command_answers (msg 11 " !roll 3D6 ") party_world H11 eq_refl)
    as [_ [Hgood _]].
  split; [exact Hok|]. split; [exact Hbad|exact Hgood].
Defined.

End DiceCommand.

(** ** More on the registry *)

Module RegistryEdges.
Import PyStr PyStrFacts Frames Dispatch Registry.

#[local] Arguments append : simpl never.
#[local] Arguments strip : simpl never.
#[local] Arguments slice_from : simpl never.
#[local] Arguments String.length : simpl never.

Lemma dispatch_sheet (m : message) (w : world) :
  author m <> client_user w ->
  startswith "!sheet" (strip (content m)) = true ->
  on_message m w = cmd_sheet m w.
Proof. intros Hau Hp. dispatch Hau Hp. Qed.

(** X3.  What the registry commands turn down, each time with nothing but
    the reply: a creation without a name; a class, an item or a sheet asked
    by a user who has no record (no entry, or an entry without any key),
    whatever the argument; a class or an item that is empty. *)
Theorem registry_rejections (m : message) (w : world) :
  author m <> client_user w ->
  (startswith "!createchar" (strip (content m)) = true ->
   strip (slice_from (String.length "!createchar") (strip (content m))) = "" ->
   on_message m w = send REPLY_NAME_MISSING w)
  /\ (startswith "!sheet" (strip (content m)) = true ->
      get_char (user_id_of m) (characters w) = None ->
      on_message m w = send REPLY_NO_SHEET w)
  /\ (startswith "!setclass" (strip (content m)) = true ->
      get_char (user_id_of m) (characters w) = None ->
      on_message m w = send REPLY_NO_CHARACTER w)
  /\ (startswith "!additem" (strip (content m)) = true ->
      get_char (user_id_of m) (characters w) = None ->
      on_message m w = send REPLY_NO_CHARACTER w)
  /\ (forall char,
        startswith "!setclass" (strip (content m)) = true ->
        get_char (user_id_of m) (characters w) = Some char ->
        strip (slice_from (String.length "!setclass") (strip (content m))) = "" ->
        on_message m w = send REPLY_CLASS_MISSING w)
  /\ (forall char,
        startswith "!additem" (strip (content m)) = true ->
        get_char (user_id_of m) (characters w) = Some char ->
        strip (slice_from (String.length "!additem") (strip (content m))) = "" ->
        on_message m w = send REPLY_ITEM_MISSING w).
Proof.
  intros Hau.
  repeat match goal with |- _ /\ _ => split end; intros;
    first [ rewrite (dispatch_createchar m w Hau) by assumption
          | rewrite (dispatch_sheet m w Hau) by assumption
          | rewrite (dispatch_setclass m w Hau) by assumption
          | rewrite (dispatch_additem m w Hau) by assumption ];
    unfold cmd_createchar, cmd_sheet, cmd_setclass, cmd_additem, bind,
      get_world;
    repeat match goal with
           | H : strip _ = "" |- _ => rewrite H
           | H : get_char _ _ = _ |- _ => rewrite H
           end;
    reflexivity.
Qed.

Lemma registry_rejections_witness :
  on_message (msg 11 "!createchar   ") party_world
  = send REPLY_NAME_MISSING party_world
  /\ on_message (msg 14 "!sheet") party_world
     = send REPLY_NO_SHEET party_world
  /\ on_message (msg 14 "!setclass") party_world
     = send REPLY_NO_CHARACTER party_world
  /\ on_message (msg 12 "!setclass  ") party_world
     = send REPLY_CLASS_MISSING party_world
  /\ on_message (msg 12 "!additem") party_world
     = send REPLY_ITEM_MISSING party_world.
Proof.
  assert (11 <> 0) as H11 by lia. assert (12 <> 0) as H12 by lia.
  assert (14 <> 0) as H14 by lia.
  destruct (registry_rejections (msg 11 "!createchar   ") party_world H11)
    as [Hname _].
  destruct (registry_rejections (msg 14 "!sheet") party_world H14)
    as [_ [Hsheet _]].
  destruct (registry_rejections (msg 14 "!setclass") party_world H14)
    as [_ [_ [Hnone _]]].
  destruct (registry_rejections (msg 12 "!setclass  ") party_world H12)
    as [_ [_ [_ [_ [Hclass _]]]]].
  destruct (registry_rejections (msg 12 "!additem") party_world H12)
    as [_ [_ [_ [_ [_ Hitem]]]]].
  split; [now apply Hname|].
  split; [now apply Hsheet|]. split; [now apply Hnone|].
  split; [eapply Hclass; reflexivity|eapply Hitem; reflexivity].
Defined.

Lemma dict_keys_set_absent {V} (k : string) (v : V) (d : dict V) :
  dict_get k d = None -> dict_keys (dict_set k v d) = (dict_keys d ++ [k])%list.
Proof.
  induction d as [|[k' v'] d IH]; simpl; [reflexivity|].
  destruct (String.eqb_spec k k') as [->|Hk]; [discriminate|].
  intros H. simpl. now rewrite (IH H).
Qed.

Lemma dict_values_set_absent {V} (k : string) (v : V) (d : dict V) :
  dict_get k d = None ->
  dict_values (dict_set k v d) = (dict_values d ++ [v])%list.
Proof.
  induction d as [|[k' v'] d IH]; simpl; [reflexivity|].
  destruct (String.eqb_spec k k') as [->|Hk]; [discriminate|].
  intros H. simpl. now rewrite (IH H).
Qed.

(** X4.  The registry keeps the order in which users first created a
    character: a user who has no entry yet goes to the end, with the new
    record as last value; a user who has one keeps their place. *)
Theorem create_keeps_order (m : message) (w : world) (name : string) :
  author m <> client_user w ->
  startswith "!createchar" (strip (content m)) = true ->
  strip (slice_from (String.length "!createchar") (strip (content m))) = name ->
  name <> "" ->
  (dict_get (user_id_of m) (characters w) = None ->
   dict_keys (characters (exec (on_message m) w))
   = (dict_keys (characters w) ++ [user_id_of m])%list
   /\ dict_values (characters (exec (on_message m) w))
      = (dict_values (characters w)
         ++ [mkCharacter (Some name) (Some "") (Some [])])%list)
  /\ (forall char,
        dict_get (user_id_of m) (characters w) = Some char ->
        dict_keys (characters (exec (on_message m) w))
        = dict_keys (characters w)).
Proof.
  intros Hau Hp Hname Hne.
  destruct (createchar_step m w name Hau Hp Hname Hne) as [_ [-> _]].
  split.
  - intros Hnone. split;
      [now apply dict_keys_set_absent|now apply dict_values_set_absent].
  - intros char Hsome. now apply (dict_keys_set_present _ _ char).
Qed.

Lemma create_keeps_order_witness :
  dict_keys (characters (exec (on_message (msg 14 "!createchar Dee")) party_world))
  = ["11"; "12"; "13"; "14"]
  /\ dict_keys (characters (exec (on_message (msg 11 "!createchar Ann")) party_world))
     = ["11"; "12"; "13"].
Proof.
  assert (11 <> 0) as H11 by lia. assert (14 <> 0) as H14 by lia.
  destruct (create_keeps_order (msg 14 "!createchar Dee") party_world "Dee"
              H14 eq_refl eq_refl ltac:(discriminate)) as [Hnew _].
  destruct (create_keeps_order (msg 11 "!createchar Ann") party_world "Ann"
              H11 eq_refl eq_refl ltac:(discriminate)) as [_ Hold].
  split.
  - now apply Hnew.
  - now apply (Hold (mkCharacter (Some "A") (Some "") (Some []))).
Defined.

(** X5.  Items pile up in the order they are added, twice the same one
    included, and the class is the last one set: after two [!additem] by a
    user the record ends with the two items; after two [!setclass] its
    class is the second one.  Name and the other field stay. *)
Theorem items_accumulate (m1 m2 : message) (w : world) (char : character)
    (a b : string) :
  author m1 <> client_user w ->
  author m2 = author m1 ->
  dict_get (user_id_of m1) (characters w) = Some char ->
  char_is_empty char = false ->
  a <> "" -> b <> "" ->
  let w2 := exec (on_message m2) (exec (on_message m1) w) in
  (startswith "!additem" (strip (content m1)) = true ->
   startswith "!additem" (strip (content m2)) = true ->
   strip (slice_from (String.length "!additem") (strip (content m1))) = a ->
   strip (slice_from (String.length "!additem") (strip (content m2))) = b ->
   dict_get (user_id_of m1) (characters w2)
   = Some (mkCharacter (c_name char) (c_class char)
                       (Some (items_of char ++ [a; b])%list)))
  /\ (startswith "!setclass" (strip (content m1)) = true ->
      startswith "!setclass" (strip (content m2)) = true ->
      strip (slice_from (String.length "!setclass") (strip (content m1))) = a ->
      strip (slice_from (String.length "!setclass") (strip (content m2))) = b ->
      dict_get (user_id_of m1) (characters w2)
      = Some (mkCharacter (c_name char) (Some b) (c_items char))).
Proof.
  intros Hau Hsame Hget Hfull Ha Hb w2. subst w2.
  assert (user_id_of m2 = user_id_of m1) as Huid
      by (unfold user_id_of; now rewrite Hsame).
  assert (author m2 <> client_user (exec (on_message m1) w)) as Hau2.
  { unfold exec. rewrite (client_user_on_message m1 w). congruence. }
  split; intros Hp1 Hp2 Ha1 Hb2.
  - destruct (additem_step m1 w char a Hau Hp1 Ha1 Ha Hget Hfull) as [E1 _].
    assert (dict_get (user_id_of m2) (characters (exec (on_message m1) w))
            = Some (mkCharacter (c_name char) (c_class char)
                                (Some (items_of char ++ [a])%list))) as Hget2
        by (rewrite Huid, E1; apply dict_get_set_same).
    assert (char_is_empty (mkCharacter (c_name char) (c_class char)
                             (Some (items_of char ++ [a])%list)) = false)
      as Hfull2 by (unfold char_is_empty; simpl; now destruct (c_name char), (c_class char)).
    destruct (additem_step m2 _ _ b Hau2 Hp2 Hb2 Hb Hget2 Hfull2) as [E2 _].
    rewrite E2, Huid, dict_get_set_same.
    do 2 f_equal. unfold items_of; cbn [c_items].
    now rewrite <- app_assoc.
  - destruct (setclass_step m1 w char a Hau Hp1 Ha1 Ha Hget Hfull) as [E1 _].
    assert (dict_get (user_id_of m2) (characters (exec (on_message m1) w))
            = Some (mkCharacter (c_name char) (Some a) (c_items char)))
      as Hget2 by (rewrite Huid, E1; apply dict_get_set_same).
    assert (char_is_empty (mkCharacter (c_name char) (Some a) (c_items char))
            = false)
      as Hfull2 by (unfold char_is_empty; simpl; now destruct (c_name char)).
    destruct (setclass_step m2 _ _ b Hau2 Hp2 Hb2 Hb Hget2 Hfull2) as [E2 _].
    rewrite E2, Huid, dict_get_set_same. reflexivity.
Qed.

Lemma items_accumulate_witness :
  dict_get "12"
    (characters (exec (on_message (msg 12 "!additem Rope"))
                      (exec (on_message (msg 12 "!additem Rope")) party_world)))
  = Some (mkCharacter (Some "B") (Some "Wizard")
                      (Some ["Staff"; "Rope"; "Rope"]))
  /\ dict_get "12"
       (characters (exec (on_message (msg 12 "!setclass Bard"))
                         (exec (on_message (msg 12 "!setclass Monk")) party_world)))
     = Some (mkCharacter (Some "B") (Some "Bard") (Some ["Staff"])).
Proof.
  assert (12 <> 0) as H12 by lia.
  destruct (items_accumulate (msg 12 "!additem Rope") (msg 12 "!additem Rope")
              party_world
              (mkCharacter (Some "B") (Some "Wizard") (Some ["Staff"]))
              "Rope" "Rope" H12 eq_refl eq_refl eq_refl
              ltac:(discriminate) ltac:(discriminate)) as [Hitems _].
  destruct (items_accumulate (msg 12 "!setclass Monk") (msg 12 "!setclass Bard")
              party_world
              (mkCharacter (Some "B") (Some "Wizard") (Some ["Staff"]))
              "Monk" "Bard" H12 eq_refl eq_refl eq_refl
              ltac:(discriminate) ltac:(discriminate)) as [_ Hclass].
  split; [now apply Hitems|now apply Hclass].
Defined.

(** X6.  A record that has keys but no name (a file edited by hand): the
    class or the item is stored and saved all the same, then the reply
    raises [KeyError] on [char['name']] and nothing is sent. *)
Theorem nameless_record_raises (m : message) (w : world) (char : character)
    (arg : string) :
  author m <> client_user w ->
  dict_get (user_id_of m) (characters w) = Some char ->
  char_is_empty char = false ->
  c_name char = None ->
  arg <> "" ->
  io_faults w (io_clock w) = Written ->
  let w' := exec (on_message m) w in
  (startswith "!setclass" (strip (content m)) = true ->
   strip (slice_from (String.length "!setclass") (strip (content m))) = arg ->
   outcome (on_message m) w = Raise (KeyError "name")
   /\ replies (on_message m) w = []
   /\ dict_get (user_id_of m) (characters w')
      = Some (mkCharacter None (Some arg) (c_items char))
   /\ character_file w' = Holds (characters w'))
  /\ (startswith "!additem" (strip (content m)) = true ->
      strip (slice_from (String.length "!additem") (strip (content m))) = arg ->
      outcome (on_message m) w = Raise (KeyError "name")
      /\ replies (on_message m) w = []
      /\ dict_get (user_id_of m) (characters w')
         = Some (mkCharacter None (c_class char)
                             (Some (items_of char ++ [arg])%list))
      /\ character_file w' = Holds (characters w')).
Proof.
  intros Hau Hget Hfull Hname Hne Hio w'. subst w'.
  split; intros Hp Harg; unfold replies, outcome, exec;
    [rewrite (dispatch_setclass m w Hau Hp)
    |rewrite (dispatch_additem m w Hau Hp)];
    unfold cmd_setclass, cmd_additem, get_char, char_name, bind, get_world,
      set_characters, save_characters, send, ret, raise;
    rewrite Harg, Hget, Hfull, (is_empty_false _ Hne), Hname; cbn;
    rewrite Hio; cbn; rewrite skipn_whole, dict_get_set_same; auto.
Qed.

Lemma nameless_record_raises_witness :
  outcome (on_message (msg 12 "!additem Dagger")) nameless_world
  = Raise (KeyError "name")
  /\ replies (on_message (msg 12 "!additem Dagger")) nameless_world = []
  /\ dict_get "12"
       (characters (exec (on_message (msg 12 "!additem Dagger")) nameless_world))
     = Some (mkCharacter None (Some "Rogue") (Some ["Dagger"]))
  /\ outcome (on_message (msg 12 "!setclass Thief")) nameless_world
     = Raise (KeyError "name").
Proof.
  assert (12 <> 0) as H12 by lia.
  destruct (nameless_record_raises (msg 12 "!additem Dagger") nameless_world
              (mkCharacter None (Some "Rogue") None) "Dagger"
              H12 eq_refl eq_refl eq_refl ltac:(discriminate) eq_refl)
    as [_ Hitem].
  destruct (nameless_record_raises (msg 12 "!setclass Thief") nameless_world
              (mkCharacter None (Some "Rogue") None) "Thief"
              H12 eq_refl eq_refl eq_refl ltac:(discriminate) eq_refl)
    as [Hclass _].
  destruct (Hitem eq_refl eq_refl) as [H1 [H2 [H3 _]]].
  destruct (Hclass eq_refl eq_refl) as [H4 _].
  auto.
Defined.

End RegistryEdges.

(** ** More on the combat coordinator *)

Module CombatEdges.
Import PyStr PyStrFacts Shuffle Frames Dispatch Combat.

#[local] Arguments append : simpl never.
#[local] Arguments reply_turn : simpl never.
#[local] Arguments reply_combat_ended : simpl never.
#[local] Arguments next_index : simpl never.
#[local] Arguments py_index : simpl never.

Lemma names_of_nameless (cs : list character) (c : character) :
  In c cs -> c_name c = None -> names_of cs = Raise (KeyError "name").
Proof.
  induction cs as [|c0 cs IH]; intros Hin Hc; [contradiction|].
  simpl. destruct (c_name c0) as [n|] eqn:E; [|reflexivity].
  destruct Hin as [->|Hin]; [congruence|]. now rewrite (IH Hin Hc).
Qed.

(** X7.  With no combat going on and a record without a name in the
    registry (a file edited by hand), [!startcombat] raises [KeyError] while
    it gathers the names: nothing is sent and nothing changes. *)
Theorem startcombat_nameless_raises (m : message) (w : world) (c : character) :
  author m <> client_user w ->
  startswith "!startcombat" (strip (content m)) = true ->
  combat_ongoing (combat_state w) = false ->
  In c (dict_values (characters w)) ->
  c_name c = None ->
  on_message m w = (Raise (KeyError "name"), w).
Proof.
  intros Hau Hp Hidle Hin Hc.
  rewrite (dispatch_startcombat m w Hau Hp).
  unfold cmd_startcombat, bind, get_world, lift.
  now rewrite Hidle, (names_of_nameless _ c Hin Hc).
Qed.

Lemma startcombat_nameless_raises_witness :
  on_message (msg 11 "!startcombat") nameless_world
  = (Raise (KeyError "name"), nameless_world).
Proof.
  assert (11 <> 0) as H11 by lia.
  apply (startcombat_nameless_raises (msg 11 "!startcombat") nameless_world
           (mkCharacter None (Some "Rogue") None) H11 eq_refl eq_refl);
    [right; left; reflexivity|reflexivity].
Defined.

(** X8.  With a combat going on and a turn order that is not empty, the
    end of a turn brings any index back into the order: whatever
    [current_index] holds (nothing, a negative number, a number past the
    end), the handler ends normally, stores [(idx + 1) mod len], which
    points into the order, and names the participant at that place. *)
Theorem endturn_heals_index (e : message) (w : world) (order : list string) :
  author e <> client_user w ->
  startswith "!endturn" (strip (content e)) = true ->
  combat_ongoing (combat_state w) = true ->
  turn_order (combat_state w) = Some order ->
  order <> [] ->
  let i := match current_index (combat_state w) with
           | Some i => i
           | None => 0
           end in
  let j := (i + 1) mod Z.of_nat (List.length order) in
  0 <= j < Z.of_nat (List.length order)
  /\ outcome (on_message e) w = Ok tt
  /\ current_index (combat_state (exec (on_message e) w)) = Some j
  /\ turn_order (combat_state (exec (on_message e) w)) = Some order
  /\ combat_wf (combat_state (exec (on_message e) w))
  /\ exists name,
       nth_error order (Z.to_nat j) = Some name
       /\ replies (on_message e) w = [reply_turn name].
Proof.
  intros Hau Hp Hon Hto Hne i j.
  destruct (next_index_nonempty order i Hne) as [Hnext Hrange].
  fold j in Hnext. rewrite Hnext in Hrange.
  destruct (py_index_in_range order j Hrange) as [name [Hidx Hnth]].
  assert (exec (on_message e) w = exec cmd_endturn w
          /\ outcome (on_message e) w = outcome cmd_endturn w) as [Ex Eo]
      by (unfold exec, outcome; now rewrite (dispatch_endturn e w Hau Hp)).
  assert (cmd_endturn w
          = bind (set_combat_state
                    (mkCombat (ongoing (combat_state w)) (Some order) (Some j)))
                 (fun _ => bind save_combat (fun _ => send (reply_turn name)))
                 w) as E.
  { unfold cmd_endturn, bind at 1, get_world. rewrite Hon, Hto. cbn [negb].
    fold i. rewrite Hnext. unfold bind, lift. unfold set_combat_state.
    destruct (save_combat _) as [[[]|err] w1]; [now rewrite Hidx|reflexivity]. }
  unfold replies. rewrite Ex, Eo. unfold outcome, exec. rewrite E.
  unfold bind, set_combat_state, save_combat, send. cbn.
  destruct (io_faults w (io_clock w)); cbn;
    (split; [exact Hrange|]); (split; [reflexivity|]);
    (split; [reflexivity|]); (split; [reflexivity|]);
    (split; [intros _; exists order, j; auto|]);
    exists name; (split; [exact Hnth|apply skipn_sent]).
Qed.

Lemma endturn_heals_index_witness :
  outcome (on_message (msg 11 "!endturn")) stray_index_world = Ok tt
  /\ current_index
       (combat_state (exec (on_message (msg 11 "!endturn")) stray_index_world))
     = Some 2
  /\ replies (on_message (msg 11 "!endturn")) stray_index_world
     = [reply_turn "C"].
Proof.
  assert (11 <> 0) as H11 by lia.
  destruct (endturn_heals_index (msg 11 "!endturn") stray_index_world
              ["A"; "B"; "C"] H11 eq_refl eq_refl eq_refl ltac:(discriminate))
    as [_ [Hok [Hidx [_ [_ [name [Hnth Hrep]]]]]]].
  split; [exact Hok|]. split; [exact Hidx|].
  injection Hnth as <-. exact Hrep.
Defined.

(** [!endcombat] while a combat goes on. *)
Lemma endcombat_step (w : world) :
  combat_ongoing (combat_state w) = true ->
  outcome cmd_endcombat w = Ok tt
  /\ combat_state (exec cmd_endcombat w) = combat_empty
  /\ sent (exec cmd_endcombat w) = (sent w ++ [reply_combat_ended])%list
  /\ client_user (exec cmd_endcombat w) = client_user w
  /\ (io_faults w (io_clock w) = Written ->
      combat_file (exec cmd_endcombat w) = Holds combat_empty).
Proof.
  intros Hon.
  unfold outcome, exec, cmd_endcombat, bind, get_world, set_combat_state,
    save_combat, send.
  rewrite Hon. cbn. destruct (io_faults w (io_clock w)); cbn;
    repeat split; intros; try reflexivity; discriminate.
Qed.

(** X9.  [!endcombat] while a combat goes on ends normally, clears the
    whole record (and the file, when the write succeeds), says so, and leaves
    the registry alone; from then on [!endturn] and [!endcombat] are turned
    down, by any user. *)
Theorem endcombat_clears (m e : message) (w : world) :
  author m <> client_user w ->
  author e <> client_user w ->
  startswith "!endcombat" (strip (content m)) = true ->
  combat_ongoing (combat_state w) = true ->
  let w' := exec (on_message m) w in
  outcome (on_message m) w = Ok tt
  /\ combat_state w' = combat_empty
  /\ replies (on_message m) w = [reply_combat_ended]
  /\ characters w' = characters w
  /\ (io_faults w (io_clock w) = Written -> combat_file w' = Holds combat_empty)
  /\ (startswith "!endturn" (strip (content e)) = true
      \/ startswith "!endcombat" (strip (content e)) = true ->
      on_message e w' = send REPLY_NOT_ACTIVE w').
Proof.
  intros Hm He Hp Hon w'. subst w'.
  unfold replies, outcome, exec. rewrite (dispatch_endcombat m w Hm Hp).
  fold (exec cmd_endcombat w). fold (outcome cmd_endcombat w).
  destruct (endcombat_step w Hon) as [Hout [Hcs [Hsent [Hcu Hfile]]]].
  split; [exact Hout|]. split; [exact Hcs|].
  split; [rewrite Hsent; apply skipn_sent|].
  split; [apply characters_cmd_endcombat|]. split; [exact Hfile|].
  assert (author e <> client_user (exec cmd_endcombat w)) as He'
      by now rewrite Hcu.
  revert He' Hcs. generalize (exec cmd_endcombat w) as w1. intros w1 He' Hcs.
  intros [Hturn|Hend];
    [rewrite (dispatch_endturn e _ He' Hturn)
    |rewrite (dispatch_endcombat e _ He' Hend)];
    unfold cmd_endturn, cmd_endcombat, bind, get_world; now rewrite Hcs.
Qed.

Lemma endcombat_clears_witness :
  combat_state
    (run [msg 11 "!startcombat"; msg 12 "!endcombat"] party_world)
  = combat_empty
  /\ on_message (msg 13 "!endturn")
       (run [msg 11 "!startcombat"; msg 12 "!endcombat"] party_world)
     = send REPLY_NOT_ACTIVE
         (run [msg 11 "!startcombat"; msg 12 "!endcombat"] party_world).
Proof.
  assert (12 <> 0) as H12 by lia. assert (13 <> 0) as H13 by lia.
  destruct (endcombat_clears (msg 12 "!endcombat") (msg 13 "!endturn")
              (exec (on_message (msg 11 "!startcombat")) party_world)
              H12 H13 eq_refl eq_refl) as [_ [Hcs [_ [_ [_ Hnot]]]]].
  split; [exact Hcs|]. apply Hnot. left. reflexivity.
Defined.

Lemma endturn_keeps_order (w : world) :
  ongoing (combat_state (exec cmd_endturn w)) = ongoing (combat_state w)
  /\ turn_order (combat_state (exec cmd_endturn w))
     = turn_order (combat_state w).
Proof.
  unfold exec, cmd_endturn, bind, get_world, set_combat_state, save_combat,
    lift, send.
  destruct (combat_ongoing (combat_state w)); cbn; [|auto].
  destruct (io_faults w (io_clock w)); cbn;
    destruct (py_index _ _); cbn; auto.
Qed.

(** X10.  A combat is only ever ended by [!endcombat], and its turn order
    is fixed: while a combat goes on, a message, whatever it is and whoever
    sends it (new characters included), leaves the flag and the turn order
    as they are, or else it is an [!endcombat] of a user and the record is
    cleared. *)
Theorem turn_order_fixed (m : message) (w : world) :
  combat_ongoing (combat_state w) = true ->
  (ongoing (combat_state (exec (on_message m) w)) = ongoing (combat_state w)
   /\ turn_order (combat_state (exec (on_message m) w))
      = turn_order (combat_state w))
  \/ (combat_state (exec (on_message m) w) = combat_empty
      /\ startswith "!endcombat" (strip (content m)) = true
      /\ author m <> client_user w).
Proof.
  intros Hon. unfold exec, on_message, bind, get_world. cbv beta iota.
  destruct (Z.eqb_spec (author m) (client_user w)) as [|Hau]; [now left|].
  destruct (startswith "!dnd" _); [left; now rewrite combat_cmd_dnd|].
  destruct (startswith "!roll" _); [left; now rewrite combat_cmd_roll|].
  destruct (startswith "!createchar" _);
    [left; now rewrite combat_cmd_createchar|].
  destruct (startswith "!sheet" _); [left; now rewrite combat_cmd_sheet|].
  destruct (startswith "!setclass" _);
    [left; now rewrite combat_cmd_setclass|].
  destruct (startswith "!additem" _);
    [left; now rewrite combat_cmd_additem|].
  destruct (startswith "!startcombat" _).
  { left. unfold cmd_startcombat, bind, get_world. now rewrite Hon. }
  destruct (startswith "!endturn" _); [left; apply endturn_keeps_order|].
  destruct (startswith "!endcombat" _) eqn:Hend; [|now left].
  right. destruct (endcombat_step w Hon) as [_ [Hcs _]]. auto.
Qed.

Lemma turn_order_fixed_witness :
  turn_order
    (combat_state
       (run [msg 11 "!startcombat"; msg 14 "!createchar Dee"] party_world))
  = turn_order (combat_state (run [msg 11 "!startcombat"] party_world)).
Proof.
  destruct (turn_order_fixed (msg 14 "!createchar Dee")
              (run [msg 11 "!startcombat"] party_world) eq_refl)
    as [[_ Hsame]|[_ [Habs _]]]; [exact Hsame|discriminate Habs].
Defined.

End CombatEdges.

(** ** The dispatcher *)

Module Dispatcher.
Import PyStr PyStrFacts Frames Dispatch Registry RegistryEdges.

(** X11.  No text starts with two of the command words, so a message is
    at most one command and the order of the tests of [on_message] decides
    nothing. *)
Theorem commands_exclusive (text : string) :
  (List.length (commands_of text) <= 1)%nat.
Proof.
  unfold commands_of. generalize (strip text) as c. intros c.
  cbn [filter COMMANDS].
  repeat match goal with
         | |- context [startswith ?p c] =>
             let H := fresh "H" in
             destruct (startswith p c) eqn:H;
             [ apply startswith_inv in H as [? ->];
               cbn [startswith String.append Ascii.eqb Bool.eqb andb
                    List.length];
               lia
             | ]
         end.
  simpl. lia.
Qed.

Lemma dispatch_dnd (m : message) (w : world) :
  author m <> client_user w ->
  startswith "!dnd" (strip (content m)) = true ->
  on_message m w = cmd_dnd (strip (content m)) w.
Proof. intros Hau Hp. dispatch Hau Hp. Qed.

(** X12.  [!dnd] and [!sheet] always end normally with exactly one
    message sent and change nothing else: whatever the completion service
    does (an answer or an exception) and whatever the registry holds. *)
Theorem dnd_and_sheet_only_answer (m : message) (w : world) :
  author m <> client_user w ->
  startswith "!dnd" (strip (content m)) = true
  \/ startswith "!sheet" (strip (content m)) = true ->
  exists text, on_message m w = send text w.
Proof.
  intros Hau [Hp|Hp].
  - rewrite (dispatch_dnd m w Hau Hp). unfold cmd_dnd, bind, get_world.
    destruct (is_empty _); [now eexists|].
    destruct (completion w _); now eexists.
  - rewrite (dispatch_sheet m w Hau Hp). unfold cmd_sheet, bind, get_world.
    destruct (get_char _ _); now eexists.
Qed.

Lemma dnd_and_sheet_only_answer_witness :
  (exists text,
     on_message (msg 11 "!dnd open the door") party_world
     = send text party_world)
  /\ (exists text,
        on_message (msg 12 "!sheet") nameless_world = send text nameless_world).
Proof.
  assert (11 <> 0) as H11 by lia. assert (12 <> 0) as H12 by lia.
  split.
  - apply (dnd_and_sheet_only_answer (msg 11 "!dnd open the door") party_world
             H11). left. reflexivity.
  - apply (dnd_and_sheet_only_answer (msg 12 "!sheet") nameless_world H12).
    right. reflexivity.
Defined.

End Dispatcher.

(** ** Sound worlds *)

Module Soundness.
Import PyStr PyStrFacts Shuffle Frames Dispatch Combat Registry RegistryEdges
  CombatEdges DiceCommand Dispatcher.

#[local] Arguments append : simpl never.
#[local] Arguments strip : simpl never.
#[local] Arguments slice_from : simpl never.
#[local] Arguments String.length : simpl never.
#[local] Arguments reply_turn : simpl never.
#[local] Arguments reply_combat_begins : simpl never.
#[local] Arguments reply_rolled : simpl never.
#[local] Arguments next_index : simpl never.
#[local] Arguments py_index : simpl never.
#[local] Arguments shuffle : simpl never.

Lemma dict_get_in_values {V} (k : string) (v : V) (d : dict V) :
  dict_get k d = Some v -> In v (dict_values d).
Proof.
  induction d as [|[k' v'] d IH]; simpl; [discriminate|].
  destruct (String.eqb k k'); [intros [= ->]; now left|].
  intros H. right. now apply IH.
Qed.

Lemma dict_values_set_forall {V} (P : V -> Prop) (k : string) (v : V)
    (d : dict V) :
  Forall P (dict_values d) -> P v -> Forall P (dict_values (dict_set k v d)).
Proof.
  intros Hd Hv. induction d as [|[k' v'] d IH]; simpl.
  - now repeat constructor.
  - inversion Hd; subst. destruct (String.eqb k k'); simpl;
      constructor; auto.
Qed.

Lemma registry_wf_set (k : string) (c : character) (d : dict character) :
  registry_wf d -> named c -> registry_wf (dict_set k c d).
Proof.
  intros [Hnd Hall] Hc. split.
  - now apply dict_set_nodup.
  - now apply dict_values_set_forall.
Qed.

Lemma get_char_named (k : string) (c : character) (d : dict character) :
  registry_wf d -> get_char k d = Some c ->
  named c /\ dict_get k d = Some c.
Proof.
  intros [_ Hall] H. unfold get_char in H.
  destruct (dict_get k d) as [c'|] eqn:E; [|discriminate].
  destruct (char_is_empty c'); [discriminate|]. injection H as ->.
  split; [|reflexivity].
  rewrite Forall_forall in Hall. apply Hall.
  now apply (dict_get_in_values k).
Qed.

Lemma names_of_named (cs : list character) :
  Forall named cs -> exists names, names_of cs = Ok names.
Proof.
  induction 1 as [|c cs [n [Hn _]] _ [names IH]]; simpl.
  - now exists [].
  - rewrite Hn, IH. now eexists.
Qed.

Lemma answers_send (text : string) (w : world) : answers (send text) w.
Proof. split; [reflexivity|now exists text]. Qed.

Lemma world_wf_send (text : string) (w : world) :
  world_wf w -> world_wf (exec (send text) w).
Proof. exact (fun H => H). Qed.

Lemma createchar_sound (m : message) (c : string) (w : world) :
  world_wf w ->
  answers (cmd_createchar m c) w /\ world_wf (exec (cmd_createchar m c) w).
Proof.
  intros [Hreg Hcombat].
  unfold answers, world_wf, outcome, exec, cmd_createchar, bind, get_world,
    set_characters, save_characters, send.
  destruct (strip (slice_from (String.length "!createchar") c)) as [|a name]
    eqn:Hname; cbn.
  - split; [split; [reflexivity|now eexists]|now split].
  - destruct (io_faults w (io_clock w)); cbn;
      (split; [split; [reflexivity|now eexists]|]);
      (split; [|exact Hcombat]);
      (apply registry_wf_set; [exact Hreg|]);
      eexists; (split; [reflexivity|discriminate]).
Qed.

Lemma setclass_sound (m : message) (c : string) (w : world) :
  world_wf w ->
  answers (cmd_setclass m c) w /\ world_wf (exec (cmd_setclass m c) w).
Proof.
  intros [Hreg Hcombat].
  unfold answers, world_wf, outcome, exec, cmd_setclass, char_name, bind,
    get_world, set_characters, save_characters, send, ret.
  destruct (get_char (user_id_of m) (characters w)) as [char|] eqn:Hget; cbn;
    [|split; [split; [reflexivity|now eexists]|now split]].
  destruct (get_char_named _ _ _ Hreg Hget) as [[n [Hn Hne]] _].
  destruct (is_empty _); cbn;
    [split; [split; [reflexivity|now eexists]|now split]|].
  rewrite Hn.
  destruct (io_faults w (io_clock w)); cbn;
    (split; [split; [reflexivity|now eexists]|]);
    (split; [|exact Hcombat]);
    (apply registry_wf_set; [exact Hreg|]);
    exists n; now split.
Qed.

Lemma additem_sound (m : message) (c : string) (w : world) :
  world_wf w ->
  answers (cmd_additem m c) w /\ world_wf (exec (cmd_additem m c) w).
Proof.
  intros [Hreg Hcombat].
  unfold answers, world_wf, outcome, exec, cmd_additem, char_name, bind,
    get_world, set_characters, save_characters, send, ret.
  destruct (get_char (user_id_of m) (characters w)) as [char|] eqn:Hget; cbn;
    [|split; [split; [reflexivity|now eexists]|now split]].
  destruct (get_char_named _ _ _ Hreg Hget) as [[n [Hn Hne]] _].
  destruct (is_empty _); cbn;
    [split; [split; [reflexivity|now eexists]|now split]|].
  rewrite Hn.
  destruct (io_faults w (io_clock w)); cbn;
    (split; [split; [reflexivity|now eexists]|]);
    (split; [|exact Hcombat]);
    (apply registry_wf_set; [exact Hreg|]);
    exists n; now split.
Qed.

Lemma roll_sound_world (c : string) (w : world) :
  world_wf w -> answers (cmd_roll c) w /\ world_wf (exec (cmd_roll c) w).
Proof.
  intros Hwf.
  unfold answers, world_wf, outcome, exec, cmd_roll, bind, get_world,
    set_random, send, raise.
  destruct (parse_dice_expression _ (random w)) as [[rolls|e] g] eqn:E.
  - cbn. split; [split; [reflexivity|now eexists]|exact Hwf].
  - apply roll_raises_value_error in E as [-> ->].
    cbn. split; [split; [reflexivity|now eexists]|exact Hwf].
Qed.

Lemma startcombat_sound (w : world) :
  world_wf w -> answers cmd_startcombat w /\ world_wf (exec cmd_startcombat w).
Proof.
  intros [Hreg Hcombat].
  assert (world_wf (exec cmd_startcombat w)) as Hwf'.
  { split; [unfold exec; now rewrite characters_cmd_startcombat
           |now apply wf_startcombat]. }
  split; [|exact Hwf'].
  destruct (combat_ongoing (combat_state w)) eqn:Hon.
  - unfold answers, outcome, exec, cmd_startcombat, bind, get_world.
    rewrite Hon. apply answers_send.
  - destruct (names_of_named _ (proj2 Hreg)) as [names Hn].
    destruct names as [|n ns].
    + unfold answers, outcome, exec, cmd_startcombat, bind, get_world, lift.
      rewrite Hon, Hn. apply answers_send.
    + destruct (startcombat_success w (n :: ns) Hon Hn ltac:(discriminate))
        as [first [rest [_ [Hout [_ [Hsent _]]]]]].
      split; [exact Hout|eexists; exact Hsent].
Qed.

Lemma endturn_sound (w : world) :
  world_wf w -> answers cmd_endturn w /\ world_wf (exec cmd_endturn w).
Proof.
  intros [Hreg Hcombat].
  assert (world_wf (exec cmd_endturn w)) as Hwf'.
  { split; [unfold exec; now rewrite characters_cmd_endturn
           |now apply wf_endturn]. }
  split; [|exact Hwf'].
  destruct (combat_ongoing (combat_state w)) eqn:Hon.
  - destruct (Hcombat Hon) as [order [i [Hto [Hne [Hci Hi]]]]].
    assert (combat_state w = mkCombat (Some true) (Some order) (Some i)) as Hcs.
    { destruct (combat_state w) as [o t c]. unfold combat_ongoing in Hon.
      simpl in *. subst. destruct o as [[|]|]; congruence. }
    destruct (endturn_step w order i Hcs Hne) as [name [_ [Hout [_ [Hsent _]]]]].
    split; [exact Hout|eexists; exact Hsent].
  - unfold answers, outcome, exec, cmd_endturn, bind, get_world.
    rewrite Hon. apply answers_send.
Qed.

Lemma endcombat_sound (w : world) :
  world_wf w -> answers cmd_endcombat w /\ world_wf (exec cmd_endcombat w).
Proof.
  intros [Hreg Hcombat].
  assert (world_wf (exec cmd_endcombat w)) as Hwf'.
  { split; [unfold exec; now rewrite characters_cmd_endcombat
           |now apply wf_endcombat]. }
  split; [|exact Hwf'].
  destruct (combat_ongoing (combat_state w)) eqn:Hon.
  - destruct (endcombat_step w Hon) as [Hout [_ [Hsent _]]].
    split; [exact Hout|eexists; exact Hsent].
  - unfold answers, outcome, exec, cmd_endcombat, bind, get_world.
    rewrite Hon. apply answers_send.
Qed.

Lemma dnd_sound (c : string) (w : world) :
  world_wf w -> answers (cmd_dnd c) w /\ world_wf (exec (cmd_dnd c) w).
Proof.
  intros Hwf. unfold cmd_dnd. cbv zeta.
  match goal with
  | |- context [is_empty ?p] => destruct (is_empty p)
  end; [split; [apply answers_send|exact Hwf]|].
  unfold answers, outcome, exec, bind, get_world. cbv beta iota.
  match goal with
  | |- context [completion w ?p] => destruct (completion w p)
  end; (split; [apply answers_send|exact Hwf]).
Qed.

Lemma sheet_sound (m : message) (w : world) :
  world_wf w -> answers (cmd_sheet m) w /\ world_wf (exec (cmd_sheet m) w).
Proof.
  intros Hwf. unfold answers, outcome, exec, cmd_sheet, bind, get_world.
  cbv beta iota.
  match goal with
  | |- context [get_char ?k ?d] => destruct (get_char k d)
  end; (split; [apply answers_send|exact Hwf]).
Qed.

(** What a message does in a sound world: it is a command of a user and
    is answered, or it is ignored. *)
Lemma on_message_cases (m : message) (w : world) :
  world_wf w ->
  world_wf (exec (on_message m) w)
  /\ ((author m <> client_user w /\ commands_of (content m) <> []
       /\ answers (on_message m) w)
      \/ ((author m = client_user w \/ commands_of (content m) = [])
          /\ on_message m w = (Ok tt, w))).
Proof.
  intros Hwf.
  pose proof (dnd_sound (strip (content m)) w Hwf) as Hdnd.
  pose proof (roll_sound_world (strip (content m)) w Hwf) as Hroll.
  pose proof (createchar_sound m (strip (content m)) w Hwf) as Hcreate.
  pose proof (sheet_sound m w Hwf) as Hsheet.
  pose proof (setclass_sound m (strip (content m)) w Hwf) as Hclass.
  pose proof (additem_sound m (strip (content m)) w Hwf) as Hitem.
  pose proof (startcombat_sound w Hwf) as Hstart.
  pose proof (endturn_sound w Hwf) as Hturn.
  pose proof (endcombat_sound w Hwf) as Hend.
  unfold answers, outcome, exec, commands_of in *.
  unfold on_message, bind, get_world. cbv beta iota. cbn [filter COMMANDS].
  destruct (Z.eqb_spec (author m) (client_user w)) as [Heq|Hne];
    [split; [exact Hwf|right; split; [now left|reflexivity]]|].
  repeat match goal with
         | |- context [if startswith ?p ?c then _ else _] =>
             destruct (startswith p c) eqn:?;
             [ match goal with
               | H : _ /\ world_wf _ |- world_wf ?x /\ _ =>
                   match type of H with
                   | _ /\ world_wf x =>
                       split; [exact (proj2 H)|];
                       left; split; [exact Hne|];
                       split; [discriminate|exact (proj1 H)]
                   end
               end
             | ]
         end.
  split; [exact Hwf|]. right. split; [now right|reflexivity].
Qed.

(** X13.  A sound registry (no key twice, every record with a name that
    is not empty) and a sound combat record stay sound under every message,
    whoever sends it and whether the saves succeed or not; so they are
    sound after any sequence of messages. *)
Theorem world_wf_invariant (ms : list message) (w : world) :
  world_wf w -> world_wf (run ms w).
Proof.
  revert w; induction ms as [|m ms IH]; intros w Hwf; [exact Hwf|].
  cbn [run]. apply IH. now apply on_message_cases.
Qed.

Lemma world_wf_party : world_wf party_world.
Proof.
  split; [split|].
  - repeat constructor; simpl; intuition discriminate.
  - repeat constructor; eexists; (split; [reflexivity|discriminate]).
  - intros H. discriminate H.
Qed.

Lemma world_wf_invariant_witness :
  world_wf
    (run [msg 14 "!createchar Dee"; msg 11 "!startcombat";
          msg 12 "!additem Rope"; msg 13 "!endturn"] party_world).
Proof.
  apply (world_wf_invariant
           [msg 14 "!createchar Dee"; msg 11 "!startcombat";
            msg 12 "!additem Rope"; msg 13 "!endturn"] party_world).
  exact world_wf_party.
Defined.

(** X14.  In a sound world no message makes [on_message] raise; a message
    of a user that starts with a command word gets exactly one reply; a
    message of the bot itself, or one that starts with no command word,
    gets none and changes nothing. *)
Theorem sound_world_answers (m : message) (w : world) :
  world_wf w ->
  outcome (on_message m) w = Ok tt
  /\ (author m <> client_user w ->
      commands_of (content m) <> [] ->
      exists text, replies (on_message m) w = [text])
  /\ (author m = client_user w \/ commands_of (content m) = [] ->
      on_message m w = (Ok tt, w)).
Proof.
  intros Hwf.
  destruct (on_message_cases m w Hwf)
    as [_ [[Hau [Hcmd [Hout [text Hsent]]]]|[Hno E]]].
  - split; [exact Hout|]. split.
    + intros _ _. exists text. unfold replies. rewrite Hsent.
      apply skipn_sent.
    + intros [Heq|Hnone]; contradiction.
  - split; [unfold outcome; now rewrite E|]. split.
    + intros Hau Hcmd. destruct Hno; contradiction.
    + intros _. exact E.
Qed.

Lemma sound_world_answers_witness :
  outcome (on_message (msg 12 "!setclass Bard")) party_world = Ok tt
  /\ (exists text,
        replies (on_message (msg 12 "!setclass Bard")) party_world = [text])
  /\ on_message (msg 12 "hello there") party_world = (Ok tt, party_world)
  /\ on_message (msg 0 "!endcombat") party_world = (Ok tt, party_world).
Proof.
  destruct (sound_world_answers (msg 12 "!setclass Bard") party_world
              world_wf_party) as [Hok [Hone _]].
  destruct (sound_world_answers (msg 12 "hello there") party_world
              world_wf_party) as [_ [_ Hother]].
  destruct (sound_world_answers (msg 0 "!endcombat") party_world
              world_wf_party) as [_ [_ Hself]].
  split; [exact Hok|].
  split; [apply Hone; [simpl; lia|discriminate]|].
  split; [apply Hother; right; reflexivity|apply Hself; left; reflexivity].
Defined.

End Soundness.

(** ** The channel *)

Module Channel.
Import PyStr Frames Dispatch.

Lemma amo_quiet {A} (m : M A) : preserves sent m -> sends_at_most_one m.
Proof. intros H w. left. apply H. Qed.

Lemma amo_send (text : string) : sends_at_most_one (send text).
Proof. intros w. right. now exists text. Qed.

Lemma amo_bind {A B} (m : M A) (k : A -> M B) :
  preserves sent m -> (forall a, sends_at_most_one (k a)) ->
  sends_at_most_one (bind m k).
Proof.
  intros Hm Hk w. unfold bind. specialize (Hm w).
  destruct (m w) as [[a|e] w']; simpl in *.
  - rewrite <- Hm. apply Hk.
  - now left.
Qed.

(** Walks through a handler whose sends all come last. *)
Ltac amo :=
  repeat first
    [ progress intros
    | apply amo_send
    | solve [apply amo_quiet; frame]
    | apply amo_bind; [solve [frame]|]
    | match goal with
      | |- sends_at_most_one (match ?x with _ => _ end) => destruct x
      | |- sends_at_most_one (if ?x then _ else _) => destruct x
      | |- sends_at_most_one (let (_, _) := ?x in _) => destruct x
      end ].

Lemma amo_on_message (m : message) : sends_at_most_one (on_message m).
Proof.
  unfold on_message, cmd_dnd, cmd_roll, cmd_createchar, cmd_sheet,
    cmd_setclass, cmd_additem, cmd_startcombat, cmd_endturn, cmd_endcombat,
    char_name.
  amo.
Qed.

(** X15.  Whatever the world holds (also documents edited by hand) and
    whether the handler returns or raises, a message makes the bot send at
    most one message. *)
Theorem at_most_one_reply (m : message) (w : world) :
  (List.length (replies (on_message m) w) <= 1)%nat.
Proof.
  unfold replies, exec.
  destruct (amo_on_message m w) as [->|[text ->]].
  - rewrite skipn_whole. simpl. lia.
  - rewrite skipn_sent. simpl. lia.
Qed.

End Channel.

(** ** Durability *)

Module Durability.
Import PyStr PyStrFacts Frames Dispatch Registry.

#[local] Arguments append : simpl never.
#[local] Arguments strip : simpl never.
#[local] Arguments slice_from : simpl never.
#[local] Arguments String.length : simpl never.
#[local] Arguments py_index : simpl never.
#[local] Arguments shuffle : simpl never.
#[local] Arguments next_index : simpl never.

Lemma io_faults_on_message m : preserves io_faults (on_message m).
Proof.
  unfold on_message, cmd_dnd, cmd_roll, cmd_createchar, cmd_sheet,
    cmd_setclass, cmd_additem, cmd_startcombat, cmd_endturn, cmd_endcombat,
    char_name.
  frame.
Qed.

Lemma character_slot_combat_commands :
  (preserves characters cmd_startcombat
   /\ preserves character_file cmd_startcombat)
  /\ (preserves characters cmd_endturn /\ preserves character_file cmd_endturn)
  /\ (preserves characters cmd_endcombat
      /\ preserves character_file cmd_endcombat).
Proof.
  unfold cmd_startcombat, cmd_endturn, cmd_endcombat.
  repeat split; frame.
Qed.

Lemma combat_slot_registry_commands m c :
  (preserves combat_state (cmd_createchar m c)
   /\ preserves combat_file (cmd_createchar m c))
  /\ (preserves combat_state (cmd_setclass m c)
      /\ preserves combat_file (cmd_setclass m c))
  /\ (preserves combat_state (cmd_additem m c)
      /\ preserves combat_file (cmd_additem m c)).
Proof.
  unfold cmd_createchar, cmd_setclass, cmd_additem, char_name.
  repeat split; frame.
Qed.

Lemma both_slots_other_commands m c :
  (preserves characters (cmd_dnd c) /\ preserves character_file (cmd_dnd c)
   /\ preserves combat_state (cmd_dnd c) /\ preserves combat_file (cmd_dnd c))
  /\ (preserves characters (cmd_roll c) /\ preserves character_file (cmd_roll c)
      /\ preserves combat_state (cmd_roll c)
      /\ preserves combat_file (cmd_roll c))
  /\ (preserves characters (cmd_sheet m) /\ preserves character_file (cmd_sheet m)
      /\ preserves combat_state (cmd_sheet m)
      /\ preserves combat_file (cmd_sheet m)).
Proof.
  unfold cmd_dnd, cmd_roll, cmd_sheet.
  repeat split; frame.
Qed.

(** The registry commands write what they change. *)
Lemma character_slot_registry_commands (m : message) (c : string) (w : world) :
  io_faults w (io_clock w) = Written ->
  file_synced (character_file w) (characters w) [] ->
  file_synced (character_file (exec (cmd_createchar m c) w))
              (characters (exec (cmd_createchar m c) w)) []
  /\ file_synced (character_file (exec (cmd_setclass m c) w))
                 (characters (exec (cmd_setclass m c) w)) []
  /\ file_synced (character_file (exec (cmd_additem m c) w))
                 (characters (exec (cmd_additem m c) w)) [].
Proof.
  intros Hio Hs.
  unfold exec, cmd_createchar, cmd_setclass, cmd_additem, char_name, bind,
    get_world, set_characters, save_characters, send, ret, raise.
  cbv zeta. repeat split.
  - match goal with |- context [is_empty ?p] => destruct (is_empty p) end;
      [exact Hs|]. cbn. rewrite Hio. reflexivity.
  - destruct (get_char _ _) as [char|]; [|exact Hs].
    match goal with |- context [is_empty ?p] => destruct (is_empty p) end;
      [exact Hs|]. cbn. rewrite Hio. destruct (c_name char); reflexivity.
  - destruct (get_char _ _) as [char|]; [|exact Hs].
    match goal with |- context [is_empty ?p] => destruct (is_empty p) end;
      [exact Hs|]. cbn. rewrite Hio. destruct (c_name char); reflexivity.
Qed.

(** The combat commands write what they change. *)
Lemma combat_slot_combat_commands (w : world) :
  io_faults w (io_clock w) = Written ->
  file_synced (combat_file w) (combat_state w) combat_empty ->
  file_synced (combat_file (exec cmd_startcombat w))
              (combat_state (exec cmd_startcombat w)) combat_empty
  /\ file_synced (combat_file (exec cmd_endturn w))
                 (combat_state (exec cmd_endturn w)) combat_empty
  /\ file_synced (combat_file (exec cmd_endcombat w))
                 (combat_state (exec cmd_endcombat w)) combat_empty.
Proof.
  intros Hio Hs.
  unfold exec, cmd_startcombat, cmd_endturn, cmd_endcombat, bind, get_world,
    lift, set_random, set_combat_state, save_combat, send.
  repeat split.
  - destruct (combat_ongoing (combat_state w)); [exact Hs|].
    destruct (names_of _) as [[|n ns]|err]; try exact Hs.
    destruct (shuffle (n :: ns) (random w)) as [order g]. cbn.
    rewrite Hio. destruct (py_index order 0); reflexivity.
  - destruct (combat_ongoing (combat_state w)); [|exact Hs]. cbn.
    rewrite Hio. destruct (py_index _ _); reflexivity.
  - destruct (combat_ongoing (combat_state w)); [|exact Hs]. cbn.
    rewrite Hio. reflexivity.
Qed.

(** Every change goes to the files: a message keeps files and memory in
    agreement when the write it may do succeeds. *)
Lemma synced_on_message (m : message) (w : world) :
  io_faults w (io_clock w) = Written ->
  synced w -> synced (exec (on_message m) w).
Proof.
  intros Hio [Hc Hf].
  pose proof character_slot_combat_commands
    as [[S1 S2] [[T1 T2] [E1 E2]]].
  pose proof (combat_slot_registry_commands m (strip (content m)))
    as [[C1 C2] [[L1 L2] [I1 I2]]].
  pose proof (both_slots_other_commands m (strip (content m)))
    as [[D1 [D2 [D3 D4]]] [[R1 [R2 [R3 R4]]] [H1 [H2 [H3 H4]]]]].
  pose proof (character_slot_registry_commands m (strip (content m)) w Hio Hc)
    as [Kc [Kl Ki]].
  pose proof (combat_slot_combat_commands w Hio Hf) as [Ks [Kt Ke]].
  unfold synced, exec in *. unfold on_message, bind, get_world.
  cbv beta iota.
  destruct (author m =? client_user w); [now split|].
  destruct (startswith "!dnd" _); [now rewrite D1, D2, D3, D4|].
  destruct (startswith "!roll" _); [now rewrite R1, R2, R3, R4|].
  destruct (startswith "!createchar" _); [now rewrite C1, C2|].
  destruct (startswith "!sheet" _); [now rewrite H1, H2, H3, H4|].
  destruct (startswith "!setclass" _); [now rewrite L1, L2|].
  destruct (startswith "!additem" _); [now rewrite I1, I2|].
  destruct (startswith "!startcombat" _); [now rewrite S1, S2|].
  destruct (startswith "!endturn" _); [now rewrite T1, T2|].
  destruct (startswith "!endcombat" _); [now rewrite E1, E2|].
  now split.
Qed.

Lemma restart_synced (w : world) :
  synced w ->
  characters (restart w) = characters w
  /\ combat_state (restart w) = combat_state w.
Proof.
  intros [Hc Hf].
  unfold restart, exec, on_ready, load_data, bind, get_world, print,
    set_characters, set_combat_state, ret. cbn.
  destruct (character_file w), (combat_file w); cbn in *;
    try contradiction; subst; auto.
Qed.

(** X16.  Nothing is lost by a restart.  From a world whose files agree
    with memory (as when the process starts without files), on a disk where
    writes succeed, after any sequence of messages the files hold exactly the
    registry and the combat record in memory: a process that starts again on
    them loads the same two documents. *)
Theorem restart_keeps_documents (ms : list message) (w : world) :
  (forall k, io_faults w k = Written) ->
  synced w ->
  characters (restart (run ms w)) = characters (run ms w)
  /\ combat_state (restart (run ms w)) = combat_state (run ms w).
Proof.
  intros Hio Hs. apply restart_synced.
  revert w Hio Hs; induction ms as [|m ms IH]; intros w Hio Hs; [exact Hs|].
  cbn [run]. apply IH.
  - intros k. unfold exec. rewrite (io_faults_on_message m w). apply Hio.
  - now apply synced_on_message.
Qed.

Lemma restart_keeps_documents_witness :
  characters
    (restart (run [msg 11 "!createchar Bram"; msg 11 "!setclass Wizard";
                   msg 12 "!createchar Zel"; msg 12 "!startcombat";
                   msg 11 "!endturn"] fresh_world))
  = [ ("11", mkCharacter (Some "Bram") (Some "Wizard") (Some []));
      ("12", mkCharacter (Some "Zel") (Some "") (Some [])) ]
  /\ combat_state
       (restart (run [msg 11 "!createchar Bram"; msg 11 "!setclass Wizard";
                      msg 12 "!createchar Zel"; msg 12 "!startcombat";
                      msg 11 "!endturn"] fresh_world))
     = combat_state
         (run [msg 11 "!createchar Bram"; msg 11 "!setclass Wizard";
               msg 12 "!createchar Zel"; msg 12 "!startcombat";
               msg 11 "!endturn"] fresh_world).
Proof.
  destruct (restart_keeps_documents
              [msg 11 "!createchar Bram"; msg 11 "!setclass Wizard";
               msg 12 "!createchar Zel"; msg 12 "!startcombat";
               msg 11 "!endturn"] fresh_world
              (fun _ => eq_refl) (conj eq_refl eq_refl)) as [Hc Hf].
  split; [rewrite Hc; reflexivity|exact Hf].
Defined.

(** X17.  A save that fails is not told to the user.  When the write of
    the registry fails (leaving the file as it was), [!createchar] still
    ends normally and still answers that the character was created; the
    record is in memory, the failure is only printed, and a process that
    starts again finds the registry as it was before the creation. *)
Theorem failed_save_loses_creation (m : message) (w : world)
    (name err : string) :
  author m <> client_user w ->
  startswith "!createchar" (strip (content m)) = true ->
  strip (slice_from (String.length "!createchar") (strip (content m))) = name ->
  name <> "" ->
  io_faults w (io_clock w) = WriteFails err None ->
  synced w ->
  let w' := exec (on_message m) w in
  outcome (on_message m) w = Ok tt
  /\ replies (on_message m) w = [reply_created name]
  /\ dict_get (user_id_of m) (characters w')
     = Some (mkCharacter (Some name) (Some "") (Some []))
  /\ character_file w' = character_file w
  /\ printed w'
     = (printed w ++ [("Error saving characters: " ++ err)%string])%list
  /\ characters (restart w') = characters w.
Proof.
  intros Hau Hp Hname Hne Hio [Hc _] w'. subst w'.
  unfold replies, outcome, exec. rewrite (dispatch_createchar m w Hau Hp).
  unfold restart, exec, on_ready, load_data.
  unfold cmd_createchar, bind, get_world, set_characters, save_characters,
    send, print, ret.
  rewrite Hname, (is_empty_false _ Hne). cbn. rewrite Hio. cbn.
  rewrite skipn_sent, dict_get_set_same.
  repeat split.
  destruct (character_file w), (combat_file w); cbn in *;
    try contradiction; subst; auto.
Qed.

Lemma failed_save_loses_creation_witness :
  replies (on_message (msg 11 "!createchar Bram")) readonly_world
  = [reply_created "Bram"]
  /\ dict_get "11"
       (characters (exec (on_message (msg 11 "!createchar Bram")) readonly_world))
     = Some (mkCharacter (Some "Bram") (Some "") (Some []))
  /\ characters
       (restart (exec (on_message (msg 11 "!createchar Bram")) readonly_world))
     = [].
Proof.
  assert (11 <> 0) as H11 by lia.
  destruct (failed_save_loses_creation (msg 11 "!createchar Bram")
              readonly_world "Bram" "Read-only file system" H11 eq_refl
              eq_refl ltac:(discriminate) eq_refl (conj eq_refl eq_refl))
    as [_ [Hrep [Hget [_ [_ Hlost]]]]].
  auto.
Defined.

End Durability.

(** ** The sheet *)

Module Sheet.
Import PyStr PyStrFacts Frames Dispatch Registry RegistryEdges.

#[local] Arguments append : simpl never.
#[local] Arguments strip : simpl never.
#[local] Arguments slice_from : simpl never.
#[local] Arguments String.length : simpl never.

(** [!sheet] for a user whose record is known. *)
Lemma sheet_step (m : message) (w : world) (char : character) :
  author m <> client_user w ->
  startswith "!sheet" (strip (content m)) = true ->
  dict_get (user_id_of m) (characters w) = Some char ->
  char_is_empty char = false ->
  on_message m w
  = send (sheet_text
            (match c_name char with Some n => n | None => "Unnamed" end)
            (match c_class char with
             | Some c => if is_empty c then "Unassigned" else c
             | None => "Unassigned"
             end)
            (match items_of char with
             | [] => "No items"
             | _ => join ", " (items_of char)
             end)) w.
Proof.
  intros Hau Hp Hget Hfull. rewrite (dispatch_sheet m w Hau Hp).
  unfold cmd_sheet, get_char, bind, get_world. now rewrite Hget, Hfull.
Qed.

(** X18.  The sheet shows what the commands stored.  Right after a user
    created a character the sheet gives the name, the class "Unassigned"
    and "No items"; after the same user set a class and added an item it
    gives that class and that item. *)
Theorem sheet_shows_record (mc ms ml mi : message) (w : world)
    (name class item : string) :
  author mc <> client_user w ->
  author ms = author mc -> author ml = author mc -> author mi = author mc ->
  startswith "!createchar" (strip (content mc)) = true ->
  startswith "!sheet" (strip (content ms)) = true ->
  startswith "!setclass" (strip (content ml)) = true ->
  startswith "!additem" (strip (content mi)) = true ->
  strip (slice_from (String.length "!createchar") (strip (content mc))) = name ->
  strip (slice_from (String.length "!setclass") (strip (content ml))) = class ->
  strip (slice_from (String.length "!additem") (strip (content mi))) = item ->
  name <> "" -> class <> "" -> item <> "" ->
  replies (on_message ms) (run [mc] w)
  = [sheet_text name "Unassigned" "No items"]
  /\ replies (on_message ms) (run [mc; ml; mi] w)
     = [sheet_text name class item].
Proof.
  intros Hau Hs Hl Hi Hpc Hps Hpl Hpi Hname Hclass Hitem Hn Hc Ht.
  assert (user_id_of ms = user_id_of mc /\ user_id_of ml = user_id_of mc
          /\ user_id_of mi = user_id_of mc) as [Us [Ul Ui]]
      by (unfold user_id_of; now rewrite Hs, Hl, Hi).
  cbn [run].
  set (w1 := exec (on_message mc) w).
  set (w2 := exec (on_message ml) w1).
  set (w3 := exec (on_message mi) w2).
  assert (client_user w1 = client_user w) as Cu1
      by apply (client_user_on_message mc w).
  assert (client_user w2 = client_user w) as Cu2
      by (rewrite <- Cu1; apply (client_user_on_message ml w1)).
  assert (client_user w3 = client_user w) as Cu3
      by (rewrite <- Cu2; apply (client_user_on_message mi w2)).
  destruct (createchar_step mc w name Hau Hpc Hname Hn) as [_ [E1 _]].
  fold w1 in E1.
  assert (dict_get (user_id_of mc) (characters w1)
          = Some (mkCharacter (Some name) (Some "") (Some []))) as G1
      by (rewrite E1; apply dict_get_set_same).
  assert (author ml <> client_user w1) as Al by (rewrite Cu1; congruence).
  rewrite <- Ul in G1.
  destruct (setclass_step ml w1 _ class Al Hpl Hclass Hc G1 eq_refl)
    as [E2 _].
  fold w2 in E2. cbn [c_name c_items] in E2.
  assert (dict_get (user_id_of mi) (characters w2)
          = Some (mkCharacter (Some name) (Some class) (Some []))) as G2
      by (rewrite E2, Ui, Ul; apply dict_get_set_same).
  assert (author mi <> client_user w2) as Ai by (rewrite Cu2; congruence).
  destruct (additem_step mi w2 _ item Ai Hpi Hitem Ht G2 eq_refl) as [E3 _].
  fold w3 in E3. cbn [c_name c_class items_of c_items app] in E3.
  assert (dict_get (user_id_of ms) (characters w3)
          = Some (mkCharacter (Some name) (Some class) (Some [item]))) as G3
      by (rewrite E3, Us, Ui; apply dict_get_set_same).
  rewrite Ul, <- Us in G1.
  assert (author ms <> client_user w1) as As1 by (rewrite Cu1; congruence).
  assert (author ms <> client_user w3) as As3 by (rewrite Cu3; congruence).
  unfold replies, exec.
  rewrite (sheet_step ms w1 _ As1 Hps G1 eq_refl).
  rewrite (sheet_step ms w3 _ As3 Hps G3 eq_refl).
  cbn [send snd sent c_name c_class c_items items_of is_empty join].
  rewrite !skipn_sent, (is_empty_false _ Hc). split; reflexivity.
Qed.

Lemma sheet_shows_record_witness :
  replies (on_message (msg 11 "!sheet")) (run [msg 11 "!createchar Bram"] fresh_world)
  = [sheet_text "Bram" "Unassigned" "No items"]
  /\ replies (on_message (msg 11 "!sheet"))
       (run [msg 11 "!createchar Bram"; msg 11 "!setclass Wizard";
             msg 11 "!additem Staff"] fresh_world)
     = [sheet_text "Bram" "Wizard" "Staff"].
Proof.
  apply (sheet_shows_record (msg 11 "!createchar Bram") (msg 11 "!sheet")
           (msg 11 "!setclass Wizard") (msg 11 "!additem Staff") fresh_world
           "Bram" "Wizard" "Staff");
    try reflexivity; try discriminate.
Defined.

End Sheet.

(** ** Turns *)

Module Turns.
Import PyStr PyStrFacts Shuffle Dispatch Combat.

(** X19. While a combat goes on with a sound record at index [i], [k]
    ends of turn move the index to [(i + k) mod len]: the participants act
    one after the other in the turn order, the first one again after the
    last, and the last reply names the one who acts. *)
Theorem turns_follow_order (e : message) (w : world) (order : list string)
    (i : Z) (k : nat) :
  author e <> client_user w ->
  startswith "!endturn" (strip (content e)) = true ->
  combat_state w = mkCombat (Some true) (Some order) (Some i) ->
  0 <= i < Z.of_nat (List.length order) ->
  k <> O ->
  let j := (i + Z.of_nat k) mod Z.of_nat (List.length order) in
  exists name,
    nth_error order (Z.to_nat j) = Some name
    /\ current_index (combat_state (run (repeat e k) w)) = Some j
    /\ turn_order (combat_state (run (repeat e k) w)) = Some order
    /\ acting (combat_state (run (repeat e k) w)) = Some name
    /\ last (sent (run (repeat e k) w)) "" = reply_turn name.
Proof.
  intros Hau Hp Hcs Hi Hk j.
  assert (order <> []) as Hne
      by (intros ->; simpl in Hi; lia).
  destruct (endturn_rounds e order Hne Hp k w i Hau Hcs Hi) as [Hk' Hlast].
  fold j in Hk', Hlast.
  destruct (Hlast Hk) as [name [Hidx Hl]].
  assert (0 <= j < Z.of_nat (List.length order)) as Hj
      by (apply Z.mod_pos_bound; lia).
  destruct (py_index_in_range order j Hj) as [name' [Hidx' Hnth]].
  assert (name' = name) as -> by congruence.
  exists name. rewrite Hk'. unfold acting. cbn [turn_order current_index].
  rewrite Hidx. auto.
Qed.

Lemma turns_follow_order_witness :
  exists name,
    nth_error ["B"; "C"; "A"] (Z.to_nat ((0 + Z.of_nat 4) mod 3)) = Some name
    /\ current_index
         (combat_state
            (run (repeat (msg 12 "!endturn") 4)
                 (exec (on_message (msg 11 "!startcombat")) party_world)))
       = Some ((0 + Z.of_nat 4) mod 3)
    /\ turn_order
         (combat_state
            (run (repeat (msg 12 "!endturn") 4)
                 (exec (on_message (msg 11 "!startcombat")) party_world)))
       = Some ["B"; "C"; "A"]
    /\ acting
         (combat_state
            (run (repeat (msg 12 "!endturn") 4)
                 (exec (on_message (msg 11 "!startcombat")) party_world)))
       = Some name
    /\ last (sent (run (repeat (msg 12 "!endturn") 4)
                       (exec (on_message (msg 11 "!startcombat")) party_world)))
            ""
       = reply_turn name.
Proof.
  apply (turns_follow_order (msg 12 "!endturn")
           (exec (on_message (msg 11 "!startcombat")) party_world)
           ["B"; "C"; "A"] 0 4);
    [discriminate|reflexivity|reflexivity|simpl; lia|discriminate].
Defined.

End Turns.

(** ** Blanks that are not ASCII *)

Module Blanks.
Import PyStr.

Example strip_unicode_blanks :
  strip (NO_BREAK_SPACE ++ " Dee " ++ IDEOGRAPHIC_SPACE ++ NO_BREAK_SPACE)
  = "Dee"
  /\ strip (NO_BREAK_SPACE ++ IDEOGRAPHIC_SPACE) = ""
  /\ strip ("a" ++ NO_BREAK_SPACE ++ "b") = "a" ++ NO_BREAK_SPACE ++ "b".
Proof. repeat split. Qed.

Example createchar_after_no_break_space :
  dict_get "14"
    (characters
       (exec (on_message (msg 14 ("!createchar" ++ NO_BREAK_SPACE ++ "Dee")))
             party_world))
  = Some (mkCharacter (Some "Dee") (Some "") (Some []))
  /\ on_message (msg 14 ("!createchar " ++ NO_BREAK_SPACE)) party_world
     = send REPLY_NAME_MISSING party_world
  /\ on_message (msg 12 ("!additem " ++ NO_BREAK_SPACE)) party_world
     = send REPLY_ITEM_MISSING party_world.
Proof. repeat split. Qed.

Example endcombat_after_no_break_space :
  combat_state
    (run [msg 11 "!startcombat"; msg 12 (NO_BREAK_SPACE ++ "!endcombat")]
         party_world)
  = combat_empty.
Proof. reflexivity. Qed.

Example int_keeps_separator_28 :
  int_ascii (String (ascii_of_nat 28) "2") = None
  /\ int_ascii (String (ascii_of_nat 12) " +1_0 ") = Some 10.
Proof. split; reflexivity. Qed.

End Blanks.
